(** * Probe-and-diff engine of flight-booking-automation

    A shallow embedding of [validateElement] and of the functions it calls:
    the accessibility analyzer, the DOM neighbourhood capture, the
    interaction executor, the DOM diff analyzer and the accessibility
    scorer, followed by the properties proved about them.

    Conventions of the embedding.
    - JavaScript strings are [string]s holding their UTF-8 bytes; [null]
      and [undefined] are [None].
    - Layout numbers (the fields of a [DOMRect], which are finite, and
      [tabIndex]) and clock readings are integers of [Z].
    - An [await]ed Playwright call is a step of the monad [M]: it reads and
      changes the browser [World], it returns or throws, and it emits the
      events of the calls it made. *)

From Stdlib Require Import ZArith Ascii String List Bool Lia.
From stdpp Require Import base option list strings pretty gmap.

#[local] Open Scope Z_scope.

(** ** JavaScript values *)

(** The outcome of an evaluation that may throw; the exception carries the
    [message] of the thrown [Error]. *)
Inductive Result (A : Type) : Type :=
| Ok (a : A)
| Throw (message : string).
Arguments Ok {A} a.
Arguments Throw {A} message.

(** Truthiness of a [string | null | undefined] value. *)
Definition truthy (v : option string) : bool :=
  match v with
  | Some s => negb (String.eqb s "")
  | None => false
  end.

(** [a || b] on [string | null | undefined] values. *)
Definition js_or (a b : option string) : option string :=
  if truthy a then a else b.

(** [String.prototype.includes]. *)
Fixpoint includes (s search : string) : bool :=
  String.prefix search s ||
  match s with
  | EmptyString => false
  | String _ rest => includes rest search
  end.

Definition bytes (codes : list nat) : string :=
  fold_right (fun c s => String (ascii_of_nat c) s) EmptyString codes.

(** The code points of ECMAScript's WhiteSpace and LineTerminator
    productions, in UTF-8. *)
Definition js_whitespace : list string :=
  map bytes
    [ [9%nat]; [10%nat]; [11%nat]; [12%nat]; [13%nat]; [32%nat];
      [194; 160]%nat; [225; 154; 128]%nat;
      [226; 128; 128]%nat; [226; 128; 129]%nat; [226; 128; 130]%nat;
      [226; 128; 131]%nat; [226; 128; 132]%nat; [226; 128; 133]%nat;
      [226; 128; 134]%nat; [226; 128; 135]%nat; [226; 128; 136]%nat;
      [226; 128; 137]%nat; [226; 128; 138]%nat;
      [226; 128; 168]%nat; [226; 128; 169]%nat; [226; 128; 175]%nat;
      [226; 129; 159]%nat; [227; 128; 128]%nat; [239; 187; 191]%nat ].

Fixpoint drop_prefix (p s : string) : option string :=
  match p, s with
  | EmptyString, _ => Some s
  | String a p', String b s' => if Ascii.eqb a b then drop_prefix p' s' else None
  | String _ _, EmptyString => None
  end.

Fixpoint drop_any (ws : list string) (s : string) : option string :=
  match ws with
  | [] => None
  | w :: ws' =>
      match drop_prefix w s with
      | Some s' => Some s'
      | None => drop_any ws' s
      end
  end.

Fixpoint strip (ws : list string) (fuel : nat) (s : string) : string :=
  match fuel with
  | O => s
  | S fuel' =>
      match drop_any ws s with
      | Some s' => strip ws fuel' s'
      | None => s
      end
  end.

Definition trimStart (s : string) : string :=
  strip js_whitespace (String.length s) s.

Definition trimEnd (s : string) : string :=
  String.rev (strip (map String.rev js_whitespace) (String.length s) (String.rev s)).

(** [String.prototype.trim]. *)
Definition trim (s : string) : string := trimEnd (trimStart s).

(** ** Snapshots of the DOM neighbourhood (what [captureNearbyElements] returns) *)

Module Position.
Record t := mk { top : Z; left : Z; width : Z; height : Z }.
End Position.

Module ElementPosition.
Record t := mk { top : Z; left : Z; bottom : Z; right : Z }.
End ElementPosition.

Module Sibling.
Record t := mk {
  tagName : string;
  className : string;
  id : string;
  isVisible : bool;
  hasAriaExpanded : bool;
  ariaExpanded : option string
}.
End Sibling.

Module Nearby.
Record t := mk {
  tagName : string;
  className : string;
  id : string;
  isVisible : bool;
  position : Position.t
}.
End Nearby.

Module DomState.
Record t := mk {
  elementPosition : ElementPosition.t;
  parentTagName : option string;
  siblings : list Sibling.t;
  nearbyElements : list Nearby.t
}.
End DomState.

(** ** The diff report (what [analyzeDomChanges] returns) *)

Inductive InteractionType :=
| none | dropdown | modal | input_expansion | content_expansion
| visibility_toggle | aria_expansion.

Definition InteractionType_eqb (a b : InteractionType) : bool :=
  match a, b with
  | none, none | dropdown, dropdown | modal, modal
  | input_expansion, input_expansion | content_expansion, content_expansion
  | visibility_toggle, visibility_toggle | aria_expansion, aria_expansion => true
  | _, _ => false
  end.

Module VisibilityChange.
Record t := mk { element : Sibling.t; wasVisible : bool; nowVisible : bool }.
End VisibilityChange.

Module ExpansionChange.
Record t := mk {
  element : Sibling.t;
  wasExpanded : option string;
  nowExpanded : option string
}.
End ExpansionChange.

Module DomChanges.
Record t := mk {
  newElements : list Nearby.t;
  changedVisibility : list VisibilityChange.t;
  expandedElements : list ExpansionChange.t;
  interactionType : InteractionType;
  description : string
}.

Definition push_changedVisibility (c : t) (x : VisibilityChange.t) : t :=
  mk (newElements c) (changedVisibility c ++ [x]) (expandedElements c)
     (interactionType c) (description c).

Definition push_expandedElements (c : t) (x : ExpansionChange.t) : t :=
  mk (newElements c) (changedVisibility c) (expandedElements c ++ [x])
     (interactionType c) (description c).

Definition classify (c : t) (k : InteractionType) (d : string) : t :=
  mk (newElements c) (changedVisibility c) (expandedElements c) k d.
End DomChanges.

(** ** [analyzeDomChanges] *)

(** The callback of [initialVisibleElements.some(...)]: the final element
    was already there, at most 50 units higher or lower. *)
Definition wasVisible (initialVisibleElements : list Nearby.t) (finalEl : Nearby.t) : bool :=
  existsb
    (fun initialEl =>
       String.eqb (Nearby.className initialEl) (Nearby.className finalEl)
       && String.eqb (Nearby.tagName initialEl) (Nearby.tagName finalEl)
       && (Z.abs (Position.top (Nearby.position initialEl)
                  - Position.top (Nearby.position finalEl)) <? 50))
    initialVisibleElements.

(** The body of [finalState.siblings.forEach((finalSibling, index) => ...)],
    from position [index] on. *)
Fixpoint forEach_sibling (initialSiblings : list Sibling.t) (index : nat)
    (finalSiblings : list Sibling.t) (changes : DomChanges.t) : DomChanges.t :=
  match finalSiblings with
  | [] => changes
  | finalSibling :: rest =>
      let initialSibling := initialSiblings !! index in
      let changes :=
        match initialSibling with
        | Some i =>
            if negb (Bool.eqb (Sibling.isVisible i) (Sibling.isVisible finalSibling))
            then DomChanges.push_changedVisibility changes
                   (VisibilityChange.mk finalSibling (Sibling.isVisible i)
                      (Sibling.isVisible finalSibling))
            else changes
        | None => changes
        end in
      let changes :=
        match initialSibling with
        | Some i =>
            if negb (bool_decide (Sibling.ariaExpanded i = Sibling.ariaExpanded finalSibling))
            then DomChanges.push_expandedElements changes
                   (ExpansionChange.mk finalSibling (Sibling.ariaExpanded i)
                      (Sibling.ariaExpanded finalSibling))
            else changes
        | None => changes
        end in
      forEach_sibling initialSiblings (S index) rest changes
  end.

Definition analyzeDomChanges (initialState finalState : DomState.t) : DomChanges.t :=
  let initialVisibleElements :=
    List.filter Nearby.isVisible (DomState.nearbyElements initialState) in
  let finalVisibleElements :=
    List.filter Nearby.isVisible (DomState.nearbyElements finalState) in
  let changes :=
    DomChanges.mk
      (List.filter (fun finalEl => negb (wasVisible initialVisibleElements finalEl))
         finalVisibleElements)
      [] [] none "" in
  let changes :=
    forEach_sibling (DomState.siblings initialState) 0
      (DomState.siblings finalState) changes in
  match DomChanges.newElements changes with
  | newElement :: _ =>
      if String.eqb (Nearby.tagName newElement) "UL"
         || includes (Nearby.className newElement) "dropdown"
         || includes (Nearby.className newElement) "menu"
      then DomChanges.classify changes dropdown
             ("Opened dropdown with "
              +:+ pretty (length (DomChanges.newElements changes))
              +:+ " new elements")
      else if includes (Nearby.className newElement) "modal"
              || includes (Nearby.className newElement) "dialog"
      then DomChanges.classify changes modal "Opened modal dialog"
      else if String.eqb (Nearby.tagName newElement) "INPUT"
              || includes (Nearby.className newElement) "input"
      then DomChanges.classify changes input_expansion "Expanded input field"
      else DomChanges.classify changes content_expansion "Revealed additional content"
  | [] =>
      match DomChanges.changedVisibility changes with
      | _ :: _ =>
          DomChanges.classify changes visibility_toggle
            ("Toggled visibility of "
             +:+ pretty (length (DomChanges.changedVisibility changes))
             +:+ " elements")
      | [] =>
          match DomChanges.expandedElements changes with
          | _ :: _ =>
              DomChanges.classify changes aria_expansion "Changed aria-expanded state"
          | [] => changes
          end
      end
  end.

(** ** [calculateAccessibilityScore] *)

Module StateChange.
Record t := mk {
  focusChanged : bool;
  ariaExpandedChanged : bool;
  ariaPressedChanged : bool;
  ariaSelectedChanged : bool
}.
End StateChange.

(** [stateChange?.flag]: [undefined], hence falsy, on a null [stateChange]. *)
Definition flag (stateChange : option StateChange.t) (f : StateChange.t -> bool) : bool :=
  match stateChange with
  | Some sc => f sc
  | None => false
  end.

(** On a null [domChanges] the test [domChanges?.interactionType !== 'none']
    holds ([undefined] is not ['none']) and the read of
    [domChanges.expandedElements] that follows throws a [TypeError]. *)
Definition calculateAccessibilityScore (stateChange : option StateChange.t)
    (success : bool) (domChanges : option DomChanges.t) : Result Z :=
  if negb success then Ok 0
  else
    let score := 50 in
    let score := if flag stateChange StateChange.focusChanged then score + 20 else score in
    let score := if flag stateChange StateChange.ariaExpandedChanged then score + 15 else score in
    let score := if flag stateChange StateChange.ariaPressedChanged then score + 10 else score in
    let score := if flag stateChange StateChange.ariaSelectedChanged then score + 5 else score in
    match domChanges with
    | Some d =>
        let score :=
          if negb (InteractionType_eqb (DomChanges.interactionType d) none)
          then
            let score := score + 10 in
            if (0 <? Z.of_nat (length (DomChanges.expandedElements d)))
            then score + 5 else score
          else score in
        Ok (Z.min score 100)
    | None =>
        Throw "Cannot read properties of null (reading 'expandedElements')"
    end.
Arguments calculateAccessibilityScore : simpl never.

(** ** The browser

    What the engine consumes from Playwright and from the page: the calls
    it awaits, each of which may throw and may change the page, and the DOM
    properties its in-page callbacks read. The theorems hold for every
    browser and every page behaviour. *)

Module DOMRect.
Record t := mk {
  top : Z; left : Z; bottom : Z; right : Z; width : Z; height : Z
}.
End DOMRect.

Record Browser := {
  World : Type;
  Node : Type;
  Node_eq_dec :: EqDecision Node;
  (* Playwright *)
  page_query : string -> World -> Result (option Node) * World;
  elem_query : Node -> string -> World -> Result (option Node) * World;
  elem_isVisible : Node -> World -> Result bool * World;
  elem_evaluate : Node -> World -> Result unit * World;
  page_evaluate : Node -> World -> Result unit * World;
  elem_click : Node -> World -> Result unit * World;
  elem_focus : Node -> World -> Result unit * World;
  elem_hover : Node -> World -> Result unit * World;
  elem_press : Node -> string -> World -> Result unit * World;
  page_waitForTimeout : Z -> World -> Result unit * World;
  Date_now : World -> Z * World;
  (* the DOM, as read inside a callback *)
  getBoundingClientRect : World -> Node -> DOMRect.t;
  parentElement : World -> Node -> option Node;
  children : World -> Node -> list Node;
  querySelectorAll : World -> string -> list Node;
  contains : World -> Node -> Node -> bool;
  el_tagName : World -> Node -> string;
  el_className : World -> Node -> string;
  el_id : World -> Node -> string;
  offsetParent_not_null : World -> Node -> bool;
  attributes : World -> Node -> list (string * string);
  activeElement : World -> option Node;
  tabIndex : World -> Node -> Z;
  innerText : World -> Node -> option string
}.

(** The calls the engine makes, in the order it makes them. *)
Inductive Event (N : Type) : Type :=
| EvQuery (selector : string)
| EvQueryIn (element : N) (selector : string)
| EvIsVisible (element : N)
| EvEvaluate (element : N)
| EvPageEvaluate (element : N)
| EvClick (element : N)
| EvFocus (element : N)
| EvHover (element : N)
| EvPress (element : N) (key : string)
| EvWait (ms : Z)
| EvLog (line : string).
Arguments EvQuery {N}.
Arguments EvQueryIn {N}.
Arguments EvIsVisible {N}.
Arguments EvEvaluate {N}.
Arguments EvPageEvaluate {N}.
Arguments EvClick {N}.
Arguments EvFocus {N}.
Arguments EvHover {N}.
Arguments EvPress {N}.
Arguments EvWait {N}.
Arguments EvLog {N}.

(** The element an action primitive was dispatched on. *)
Definition dispatch_target {N : Type} (e : Event N) : option N :=
  match e with
  | EvClick n | EvFocus n | EvHover n | EvPress n _ => Some n
  | _ => None
  end.

(** The element whose neighbourhood a [page.evaluate] captured. *)
Definition capture_target {N : Type} (e : Event N) : option N :=
  match e with
  | EvPageEvaluate n => Some n
  | _ => None
  end.

(** ** Records of the engine *)

Inductive InteractionKind := click | focus | hover | keydown.

Module InteractionSpec.
Record t := mk {
  type : InteractionKind;
  key : option string;
  expectStateChange : option bool
}.
End InteractionSpec.

Module ElementState.
Record t := mk {
  focused : bool;
  ariaExpanded : option string;
  ariaPressed : option string;
  ariaSelected : option string
}.
End ElementState.

Module InteractionResult.
Record t := mk {
  type : InteractionKind;
  success : bool;
  error : option string;
  interactionTime : Z;
  stateChange : option StateChange.t;
  accessibilityScore : Z
}.
End InteractionResult.

Module Accessibility.
Record t := mk {
  tagName : string;
  isVisible : bool;
  isFocusable : bool;
  ariaAttributes : gmap string string;
  accessibleName : option string;
  hasValidSemantics : bool
}.
End Accessibility.

Module ValidationResult.
Record t := mk {
  found : bool;
  details : option Accessibility.t;
  childFound : bool;
  childDetails : option Accessibility.t;
  interactionResult : option InteractionResult.t;
  domChanges : option DomChanges.t;
  executionTime : Z
}.
End ValidationResult.

Section Engine.
Context (B : Browser).

#[local] Abbreviation World := (World B).
#[local] Abbreviation Node := (Node B).

(** *** The monad of awaited calls *)

Definition M (A : Type) : Type := World -> Result A * World * list (Event Node).

Definition ret {A} (a : A) : M A := fun w => (Ok a, w, []).

Definition bind {A C} (m : M A) (k : A -> M C) : M C := fun w =>
  match m w with
  | (Ok a, w', t) => let '(r, w'', t') := k a w' in (r, w'', t ++ t')
  | (Throw e, w', t) => (Throw e, w', t)
  end.

(** [try { m } catch (err) { h err.message }] *)
Definition try_catch {A} (m : M A) (h : string -> M A) : M A := fun w =>
  match m w with
  | (Ok a, w', t) => (Ok a, w', t)
  | (Throw e, w', t) => let '(r, w'', t') := h e w' in (r, w'', t ++ t')
  end.

Definition lift {A} (r : Result A) : M A := fun w => (r, w, []).

Definition call {A} (e : Event Node) (f : World -> Result A * World) : M A :=
  fun w => let '(r, w') := f w in (r, w', [e]).

Definition now : M Z := fun w => let '(t, w') := Date_now B w in (Ok t, w', []).

Definition console_log (line : string) : M unit := fun w => (Ok tt, w, [EvLog line]).

Definition when (c : bool) (m : M unit) : M unit := if c then m else ret tt.

(** [await element.evaluate(cb)] *)
Definition evaluate {A} (element : Node) (cb : World -> Node -> A) : M A := fun w =>
  match elem_evaluate B element w with
  | (Ok _, w') => (Ok (cb w' element), w', [EvEvaluate element])
  | (Throw e, w') => (Throw e, w', [EvEvaluate element])
  end.

(** [await page.evaluate(cb, element)] *)
Definition page_eval {A} (element : Node) (cb : World -> Node -> A) : M A := fun w =>
  match page_evaluate B element w with
  | (Ok _, w') => (Ok (cb w' element), w', [EvPageEvaluate element])
  | (Throw e, w') => (Throw e, w', [EvPageEvaluate element])
  end.

#[local] Notation "x <- m ;; k" := (bind m (fun x => k))
  (at level 100, m at next level, right associativity).
#[local] Notation "m ;;; k" := (bind m (fun _ => k))
  (at level 100, right associativity).

(** *** DOM reads *)

Definition getAttribute (w : World) (el : Node) (name : string) : option string :=
  snd <$> List.find (fun a => String.eqb (fst a) name) (attributes B w el).

Definition hasAttribute (w : World) (el : Node) (name : string) : bool :=
  bool_decide (is_Some (getAttribute w el name)).

(** *** [analyzeAccessibility] *)

Definition isFocusable_cb (w : World) (el : Node) : bool :=
  (0 <=? tabIndex B w el)
  || bool_decide (el_tagName B w el ∈ ["INPUT"; "BUTTON"; "SELECT"; "TEXTAREA"; "A"])
  || hasAttribute w el "tabindex".

Definition ariaAttributes_cb (w : World) (el : Node) : gmap string string :=
  fold_left
    (fun aria attr =>
       if String.prefix "aria-" (fst attr) || String.eqb (fst attr) "role"
       then <[fst attr := snd attr]> aria
       else aria)
    (attributes B w el) ∅.

Definition accessibleName_cb (w : World) (el : Node) : option string :=
  js_or (getAttribute w el "aria-label")
    (js_or (getAttribute w el "aria-labelledby")
       (js_or (getAttribute w el "alt")
          (js_or (getAttribute w el "title")
             (js_or (trim <$> innerText B w el) None)))).

Definition hasValidSemantics_cb (w : World) (el : Node) : bool :=
  let interactiveElements := ["BUTTON"; "A"; "INPUT"; "SELECT"; "TEXTAREA"] in
  let hasRole := hasAttribute w el "role" in
  let isSemanticElement := bool_decide (el_tagName B w el ∈ interactiveElements) in
  isSemanticElement || hasRole.

Definition analyzeAccessibility (element : Node) : M Accessibility.t :=
  tagName <- evaluate element (el_tagName B) ;;
  isVisible <- call (EvIsVisible element) (elem_isVisible B element) ;;
  isFocusable <- evaluate element isFocusable_cb ;;
  ariaAttributes <- evaluate element ariaAttributes_cb ;;
  accessibleName <- evaluate element accessibleName_cb ;;
  hasValidSemantics <- evaluate element hasValidSemantics_cb ;;
  ret (Accessibility.mk tagName isVisible isFocusable ariaAttributes
         accessibleName hasValidSemantics).

(** *** [captureNearbyElements] *)

Definition captureNearbyElements_cb (w : World) (el : Node) : DomState.t :=
  let rect := getBoundingClientRect B w el in
  let parent := parentElement B w el in
  let nearbyElements :=
    List.filter
      (fun candidate =>
         if bool_decide (candidate = el) || contains B w el candidate
            || contains B w candidate el
         then false
         else
           let candidateRect := getBoundingClientRect B w candidate in
           let isNearby :=
             (Z.abs (DOMRect.top candidateRect - DOMRect.bottom rect) <? 200)
             && (Z.abs (DOMRect.left candidateRect - DOMRect.left rect) <? 200) in
           isNearby && (50 <? DOMRect.width candidateRect)
           && (20 <? DOMRect.height candidateRect))
      (querySelectorAll B w "div, ul, section") in
  DomState.mk
    (ElementPosition.mk (DOMRect.top rect) (DOMRect.left rect)
       (DOMRect.bottom rect) (DOMRect.right rect))
    (js_or (el_tagName B w <$> parent) None)
    (map
       (fun sibling =>
          Sibling.mk (el_tagName B w sibling) (el_className B w sibling)
            (el_id B w sibling) (offsetParent_not_null B w sibling)
            (hasAttribute w sibling "aria-expanded")
            (getAttribute w sibling "aria-expanded"))
       (from_option (children B w) [] parent))
    (map
       (fun nearby =>
          Nearby.mk (el_tagName B w nearby) (el_className B w nearby)
            (el_id B w nearby) (offsetParent_not_null B w nearby)
            (Position.mk
               (DOMRect.top (getBoundingClientRect B w nearby))
               (DOMRect.left (getBoundingClientRect B w nearby))
               (DOMRect.width (getBoundingClientRect B w nearby))
               (DOMRect.height (getBoundingClientRect B w nearby))))
       nearbyElements).

Definition captureNearbyElements (element : Node) : M DomState.t :=
  page_eval element captureNearbyElements_cb.

(** *** [testInteractionWithDomAnalysis] *)

Definition elementState_cb (w : World) (el : Node) : ElementState.t :=
  ElementState.mk
    (bool_decide (Some el = activeElement B w))
    (getAttribute w el "aria-expanded")
    (getAttribute w el "aria-pressed")
    (getAttribute w el "aria-selected").

(** The [switch (interaction.type)]. *)
Definition dispatch (element : Node) (interaction : InteractionSpec.t) : M unit :=
  match InteractionSpec.type interaction with
  | click => call (EvClick element) (elem_click B element)
  | focus => call (EvFocus element) (elem_focus B element)
  | hover => call (EvHover element) (elem_hover B element)
  | keydown =>
      call (EvFocus element) (elem_focus B element) ;;;
      if truthy (InteractionSpec.key interaction)
      then
        let key := default "" (InteractionSpec.key interaction) in
        call (EvPress element key) (elem_press B element key)
      else ret tt
  end.

(** The [try] block. The locals [domChanges], [stateChange] and [success]
    are assigned after the last call that can throw, so the block either
    throws with all three untouched or completes with all three set; it
    returns the values of [domChanges] and [stateChange]. *)
Definition interaction_body (element : Node) (interaction : InteractionSpec.t)
    (initialDomState : DomState.t) : M (DomChanges.t * StateChange.t) :=
  initialState <- evaluate element elementState_cb ;;
  dispatch element interaction ;;;
  call (EvWait 300) (page_waitForTimeout B 300) ;;;
  finalDomState <- captureNearbyElements element ;;
  finalState <- evaluate element elementState_cb ;;
  let domChanges := analyzeDomChanges initialDomState finalDomState in
  let stateChange :=
    StateChange.mk
      (negb (Bool.eqb (ElementState.focused initialState)
               (ElementState.focused finalState)))
      (negb (bool_decide (ElementState.ariaExpanded initialState
                          = ElementState.ariaExpanded finalState)))
      (negb (bool_decide (ElementState.ariaPressed initialState
                          = ElementState.ariaPressed finalState)))
      (negb (bool_decide (ElementState.ariaSelected initialState
                          = ElementState.ariaSelected finalState))) in
  ret (domChanges, stateChange).

Definition testInteractionWithDomAnalysis (element : Node)
    (interaction : InteractionSpec.t) (initialDomState : DomState.t)
    : M (InteractionResult.t * option DomChanges.t) :=
  interactionStart <- now ;;
  locals <-
    try_catch
      (r <- interaction_body element interaction initialDomState ;;
       ret (true, None, Some (snd r), Some (fst r)))
      (fun message => ret (false, Some message, None, None)) ;;
  let '(success, error, stateChange, domChanges) := locals in
  finished <- now ;;
  let interactionTime := finished - interactionStart in
  accessibilityScore <- lift (calculateAccessibilityScore stateChange success domChanges) ;;
  ret (InteractionResult.mk (InteractionSpec.type interaction) success error
         interactionTime stateChange accessibilityScore,
       domChanges).

(** *** [validateElement] *)

(** The closing [Date.now() - testStart] and the returned object. *)
Definition finish (testStart : Z) (found : bool) (details : option Accessibility.t)
    (childFound : bool) (childDetails : option Accessibility.t)
    (interactionResult : option InteractionResult.t)
    (domChanges : option DomChanges.t) : M ValidationResult.t :=
  finished <- now ;;
  let executionTime := finished - testStart in
  ret (ValidationResult.mk found details childFound childDetails
         interactionResult domChanges executionTime).

Definition validateElement (selector : string) (description : option string)
    (childSelector : option string) (interactionTest : option InteractionSpec.t)
    : M ValidationResult.t :=
  let text := default "" description in
  testStart <- now ;;
  container <- call (EvQuery selector) (page_query B selector) ;;
  match container with
  | Some container =>
      details <- analyzeAccessibility container ;;
      when (truthy description)
        (console_log ("✅ " +:+ text +:+ " container found")) ;;;
      initialDomState <- captureNearbyElements container ;;
      if truthy childSelector then
        let childSelector := default "" childSelector in
        childElement <-
          call (EvQueryIn container childSelector)
            (elem_query B container childSelector) ;;
        match childElement with
        | Some childElement =>
            childDetails <- analyzeAccessibility childElement ;;
            when (truthy description)
              (console_log ("✅ Child element found within " +:+ text)) ;;;
            match interactionTest with
            | Some interactionTest =>
                interactionData <-
                  testInteractionWithDomAnalysis childElement interactionTest
                    initialDomState ;;
                finish testStart true (Some details) true (Some childDetails)
                  (Some (fst interactionData)) (snd interactionData)
            | None =>
                finish testStart true (Some details) true (Some childDetails)
                  None None
            end
        | None =>
            when (truthy description)
              (console_log ("❌ Child element NOT found within " +:+ text)) ;;;
            finish testStart true (Some details) false None None None
        end
      else
        match interactionTest with
        | Some interactionTest =>
            interactionData <-
              testInteractionWithDomAnalysis container interactionTest
                initialDomState ;;
            finish testStart true (Some details) false None
              (Some (fst interactionData)) (snd interactionData)
        | None => finish testStart true (Some details) false None None None
        end
  | None =>
      when (truthy description)
        (console_log ("❌ " +:+ text +:+ " container NOT found")) ;;;
      finish testStart false None false None None None
  end.

End Engine.

(** ** Vocabulary of the statements *)

(** [s] contains [word]. *)
Definition contains_word (s word : string) : Prop :=
  exists pre post, s = pre +:+ word +:+ post.

(** The three shapes the classification looks for in the first new element. *)
Definition dropdown_like (e : Nearby.t) : Prop :=
  Nearby.tagName e = "UL"
  \/ contains_word (Nearby.className e) "dropdown"
  \/ contains_word (Nearby.className e) "menu".

Definition modal_like (e : Nearby.t) : Prop :=
  contains_word (Nearby.className e) "modal"
  \/ contains_word (Nearby.className e) "dialog".

Definition input_like (e : Nearby.t) : Prop :=
  Nearby.tagName e = "INPUT" \/ contains_word (Nearby.className e) "input".

(** The entries one pair of siblings at the same index contributes. *)
Definition visibility_change (before after : Sibling.t) : option VisibilityChange.t :=
  if negb (Bool.eqb (Sibling.isVisible before) (Sibling.isVisible after))
  then Some (VisibilityChange.mk after (Sibling.isVisible before) (Sibling.isVisible after))
  else None.

Definition expansion_change (before after : Sibling.t) : option ExpansionChange.t :=
  if negb (bool_decide (Sibling.ariaExpanded before = Sibling.ariaExpanded after))
  then Some (ExpansionChange.mk after (Sibling.ariaExpanded before)
               (Sibling.ariaExpanded after))
  else None.

(** A snapshot with another list of siblings. *)
Definition with_siblings (s : DomState.t) (l : list Sibling.t) : DomState.t :=
  DomState.mk (DomState.elementPosition s) (DomState.parentTagName s) l
    (DomState.nearbyElements s).

(** The elements the action primitives of a trace were dispatched on, and
    the elements whose neighbourhood was captured, in order. *)
Definition targets {N : Type} (t : list (Event N)) : list N := omap dispatch_target t.
Definition captures {N : Type} (t : list (Event N)) : list N := omap capture_target t.

(** Every action [m] dispatches, from any world, is on an element
    satisfying [P]. *)
Definition acts_on (B : Browser) {A} (P : Node B -> Prop) (m : M B A) : Prop :=
  forall w, Forall P (targets (snd (m w))).

(** The first candidate that is neither absent nor empty. *)
Definition first_non_empty (candidates : list (option string)) : option string :=
  from_option id None (List.find truthy candidates).

(** The lines [validateElement] logs, when it was given a description. *)
Definition logged (description : option string) (line : string) {N : Type}
    : list (Event N) :=
  if truthy description then [EvLog line] else [].

(** The report of [analyzeDomChanges] before its classification: the three
    lists filled, the type still ['none']. *)
Definition collected (initialState finalState : DomState.t) : DomChanges.t :=
  forEach_sibling (DomState.siblings initialState) 0 (DomState.siblings finalState)
    (DomChanges.mk
       (List.filter
          (fun finalEl =>
             negb (wasVisible
                     (List.filter Nearby.isVisible (DomState.nearbyElements initialState))
                     finalEl))
          (List.filter Nearby.isVisible (DomState.nearbyElements finalState)))
       [] [] none "").

(** The report on which nothing happened. *)
Definition no_changes : DomChanges.t := DomChanges.mk [] [] [] none "".

(** The score as the sum of its bonuses, the two diff bonuses taken
    independently of each other. *)
Definition bonus (b : bool) (points : Z) : Z := if b then points else 0.

Definition score_formula (stateChange : option StateChange.t) (d : DomChanges.t) : Z :=
  Z.min 100
    (50
     + bonus (flag stateChange StateChange.focusChanged) 20
     + bonus (flag stateChange StateChange.ariaExpandedChanged) 15
     + bonus (flag stateChange StateChange.ariaPressedChanged) 10
     + bonus (flag stateChange StateChange.ariaSelectedChanged) 5
     + bonus (negb (InteractionType_eqb (DomChanges.interactionType d) none)) 10
     + bonus (negb (bool_decide (DomChanges.expandedElements d = []))) 5).

(** ** A small page to run the engine on

    A trip-type widget: a container [div.widget] (node 0) holding a button
    (node 1) that opens a menu [ul.dropdown] (node 2) rendered right under
    the widget, outside of it. Node 3 is a stale handle: every call on it
    throws. Node 4 is covered by an overlay: it can be read, and actions on
    it time out. The selector [#widget] finds the container, [#stale] the
    stale handle, [#covered] the covered element, and [button], inside the
    container, the button. *)
Module Demo.

Record world := mkWorld { clock : Z; opened : bool; focusedNode : option nat }.

Definition start : world := mkWorld 1000 false None.

Definition detached : string := "Element is not attached to the DOM".

Definition guarded {A : Type} (n : nat) (a : A) (w : world) : Result A * world :=
  if Nat.eqb n 3 then (Throw detached, w) else (Ok a, w).

Definition timeout : string := "Timeout 30000ms exceeded.".

(** Actions on node 4, an element covered by an overlay, time out. *)
Definition actionable {A : Type} (n : nat) (a : A) (w : world) : Result A * world :=
  if Nat.eqb n 4 then (Throw timeout, w) else guarded n a w.

Definition rect (w : world) (n : nat) : DOMRect.t :=
  match n with
  | 0%nat => DOMRect.mk 0 0 40 300 300 40
  | 1%nat => DOMRect.mk 5 5 35 100 95 30
  | 2%nat => if opened w then DOMRect.mk 40 0 140 200 200 100
             else DOMRect.mk 0 0 0 0 0 0
  | _ => DOMRect.mk 0 0 0 0 0 0
  end.

Definition browser : Browser := {|
  World := world;
  Node := nat;
  page_query sel w :=
    (Ok (if String.eqb sel "#widget" then Some 0%nat
         else if String.eqb sel "#stale" then Some 3%nat
         else if String.eqb sel "#covered" then Some 4%nat else None), w);
  elem_query n sel w :=
    guarded n (if Nat.eqb n 0 && String.eqb sel "button" then Some 1%nat else None) w;
  elem_isVisible n w := guarded n (negb (Nat.eqb n 2) || opened w) w;
  elem_evaluate n w := guarded n tt w;
  page_evaluate n w := guarded n tt w;
  elem_click n w :=
    actionable n tt
      (if Nat.eqb n 1 then mkWorld (clock w) (negb (opened w)) (Some 1%nat) else w);
  elem_focus n w := actionable n tt (mkWorld (clock w) (opened w) (Some n));
  elem_hover n w := actionable n tt w;
  elem_press n key w :=
    actionable n tt
      (if Nat.eqb n 1 && String.eqb key "Enter"
       then mkWorld (clock w) (negb (opened w)) (focusedNode w) else w);
  page_waitForTimeout ms w := (Ok tt, mkWorld (clock w + ms) (opened w) (focusedNode w));
  Date_now w := (clock w, mkWorld (clock w + 1) (opened w) (focusedNode w));
  getBoundingClientRect := rect;
  parentElement w n := if Nat.eqb n 1 then Some 0%nat else None;
  children w n := if Nat.eqb n 0 then [1%nat] else [];
  querySelectorAll w sel := if String.eqb sel "div, ul, section" then [0%nat; 2%nat] else [];
  contains w a b := Nat.eqb a b || (Nat.eqb a 0 && Nat.eqb b 1);
  el_tagName w n :=
    match n with 1%nat => "BUTTON" | 2%nat => "UL" | _ => "DIV" end;
  el_className w n :=
    match n with 0%nat => "widget" | 2%nat => "dropdown" | _ => "" end;
  el_id w n := match n with 0%nat => "widget" | _ => "" end;
  offsetParent_not_null w n := negb (Nat.eqb n 2) || opened w;
  attributes w n :=
    match n with
    | 1%nat => [("aria-expanded", if opened w then "true" else "false");
                ("aria-labelledby", "trip-label"); ("title", "Trip")]
    | 2%nat => [("role", "listbox")]
    | _ => []
    end;
  activeElement := focusedNode;
  tabIndex w n := match n with 1%nat => 0 | _ => -1 end;
  innerText w n := match n with 1%nat => Some "  One way " | _ => Some "" end
|}.

Definition clickSpec : InteractionSpec.t := InteractionSpec.mk click None (Some true).
Definition hoverSpec : InteractionSpec.t := InteractionSpec.mk hover None None.

(** Two snapshots for the diff: a menu and a panel appear under a widget
    while its second sibling is hidden. *)
Definition trigger : Sibling.t := Sibling.mk "BUTTON" "" "" true true (Some "false").
Definition hint : Sibling.t := Sibling.mk "SPAN" "hint" "" true false None.
Definition menu : Nearby.t := Nearby.mk "UL" "nav dropdown-list" "" true (Position.mk 40 0 200 100).
Definition panel : Nearby.t := Nearby.mk "DIV" "modal" "" true (Position.mk 60 0 200 100).
Definition footer : Nearby.t := Nearby.mk "DIV" "footer" "" true (Position.mk 150 0 300 40).

Definition before : DomState.t :=
  DomState.mk (ElementPosition.mk 0 0 40 300) (Some "DIV") [trigger; hint] [footer].

Definition after : DomState.t :=
  DomState.mk (ElementPosition.mk 0 0 40 300) (Some "DIV")
    [trigger;
     Sibling.mk "SPAN" "hint" "" false false None]
    [menu; panel; footer].

(** Later the menu, the panel and the hint are taken out of the page. *)
Definition collapsed : DomState.t :=
  DomState.mk (ElementPosition.mk 0 0 40 300) (Some "DIV") [trigger] [footer].

(** Snapshots in which one thing happens: [showing e] has the single nearby
    element [e], [among l] the siblings [l]. *)
Definition showing (e : Nearby.t) : DomState.t :=
  DomState.mk (ElementPosition.mk 0 0 40 300) (Some "DIV") [] [e].
Definition among (l : list Sibling.t) : DomState.t :=
  DomState.mk (ElementPosition.mk 0 0 40 300) (Some "DIV") l [].
Definition nothing : DomState.t := among [].

Definition search : Nearby.t :=
  Nearby.mk "DIV" "search-input" "" true (Position.mk 60 0 200 100).
Definition expanded : Sibling.t := Sibling.mk "BUTTON" "" "" true true (Some "true").
Definition hidden : Sibling.t := Sibling.mk "SPAN" "hint" "" false false None.

End Demo.

(** ** The handler's probes and its report

    From the Lambda handler: the selectors of [VALIDATION_SELECTORS], the
    seven calls of [validateElement] the handler awaits in order, and the
    lists and the message it computes from their results. The launch of
    the browser, the screenshot, the upload and the serialization of the
    response are outside the embedding. *)

(** [s] between double quotes. *)
Definition quoted (s : string) : string := bytes [34%nat] +:+ s +:+ bytes [34%nat].

Module VALIDATION_SELECTORS.
Definition journeyTypeDiv : string := "div[data-att=" +:+ quoted "f2_journey-type" +:+ "]".
Definition travelerInfoDiv : string := "div[data-att=" +:+ quoted "f2_traveler-info" +:+ "]".
Definition promoCodeDiv : string := "div[data-att=" +:+ quoted "f2_promo-code" +:+ "]".
Definition originField : string := "div[data-att=" +:+ quoted "f1_origin" +:+ "]".
Definition startDateToggler : string := "div[data-att=" +:+ quoted "start-date-toggler" +:+ "]".
Definition endDateToggler : string := "div[data-att=" +:+ quoted "end-date-toggler" +:+ "]".
Definition searchButton : string := "button:has-text(" +:+ quoted "SEARCH" +:+ ")".
End VALIDATION_SELECTORS.

(** The results of the seven probes, under the names the response gives
    them in [divTests]. *)
Module DivTests.
Record t := mk {
  journeyTypeDiv : ValidationResult.t;
  travelerInfoDiv : ValidationResult.t;
  promoCodeDiv : ValidationResult.t;
  originField : ValidationResult.t;
  startDateToggler : ValidationResult.t;
  endDateToggler : ValidationResult.t;
  searchButton : ValidationResult.t
}.

(** The array literal the handler filters. *)
Definition results (d : t) : list ValidationResult.t :=
  [journeyTypeDiv d; travelerInfoDiv d; promoCodeDiv d; originField d;
   startDateToggler d; endDateToggler d; searchButton d].
End DivTests.

(** The seven [await validateElement(page, ...)] of the handler. *)
Definition runProbes (B : Browser) : M B DivTests.t :=
  let dropdownButton :=
    "button[role=" +:+ quoted "combobox" +:+ "], button[aria-haspopup="
    +:+ quoted "listbox" +:+ "], button" in
  let dateInput := "button, input[type=" +:+ quoted "date" +:+ "], input" in
  bind B
    (validateElement B VALIDATION_SELECTORS.journeyTypeDiv (Some "Journey type selector")
       (Some dropdownButton) (Some (InteractionSpec.mk click None (Some true))))
    (fun journeyTypeDivResult =>
  bind B
    (validateElement B VALIDATION_SELECTORS.travelerInfoDiv (Some "Traveler info selector")
       (Some dropdownButton) None)
    (fun travelerInfoDivResult =>
  bind B
    (validateElement B VALIDATION_SELECTORS.promoCodeDiv (Some "Promo code section")
       (Some ("input[type=" +:+ quoted "text" +:+ "], input")) None)
    (fun promoCodeDivResult =>
  bind B
    (validateElement B VALIDATION_SELECTORS.originField (Some "Origin field")
       (Some ("input[type=" +:+ quoted "text" +:+ "], input, button[role="
              +:+ quoted "combobox" +:+ "]"))
       (Some (InteractionSpec.mk focus None None)))
    (fun originFieldResult =>
  bind B
    (validateElement B VALIDATION_SELECTORS.startDateToggler (Some "Start date selector")
       (Some dateInput) None)
    (fun startDateTogglerResult =>
  bind B
    (validateElement B VALIDATION_SELECTORS.endDateToggler (Some "End date selector")
       (Some dateInput) None)
    (fun endDateTogglerResult =>
  bind B
    (validateElement B VALIDATION_SELECTORS.searchButton (Some "Search button")
       None (Some (InteractionSpec.mk hover None None)))
    (fun searchButtonResult =>
  ret B
    (DivTests.mk journeyTypeDivResult travelerInfoDivResult promoCodeDivResult
       originFieldResult startDateTogglerResult endDateTogglerResult
       searchButtonResult)))))))).

Definition allElementsFound (d : DivTests.t) : bool :=
  ValidationResult.found (DivTests.journeyTypeDiv d)
  && ValidationResult.found (DivTests.travelerInfoDiv d)
  && ValidationResult.found (DivTests.promoCodeDiv d)
  && ValidationResult.found (DivTests.originField d)
  && ValidationResult.found (DivTests.startDateToggler d)
  && ValidationResult.found (DivTests.endDateToggler d)
  && ValidationResult.found (DivTests.searchButton d).

Definition totalInteractiveElements (d : DivTests.t) : list ValidationResult.t :=
  List.filter
    (fun result => ValidationResult.childFound result || ValidationResult.found result)
    (DivTests.results d).

(** [details?.hasValidSemantics] and [details?.accessibleName]. *)
Definition semantics_of (details : option Accessibility.t) : bool :=
  from_option Accessibility.hasValidSemantics false details.

Definition name_of (details : option Accessibility.t) : option string :=
  details ≫= Accessibility.accessibleName.

Definition accessibleElements (d : DivTests.t) : list ValidationResult.t :=
  List.filter
    (fun result =>
       (semantics_of (ValidationResult.childDetails result)
        || semantics_of (ValidationResult.details result))
       && truthy (js_or (name_of (ValidationResult.childDetails result))
                    (name_of (ValidationResult.details result))))
    (totalInteractiveElements d).

Definition interactiveElements (d : DivTests.t) : list ValidationResult.t :=
  List.filter
    (fun result =>
       from_option InteractionResult.success false
         (ValidationResult.interactionResult result))
    (totalInteractiveElements d).

Definition message (d : DivTests.t) : string :=
  if allElementsFound d
  then "Success - Screenshot captured, "
       +:+ pretty (length (totalInteractiveElements d)) +:+ " elements found, "
       +:+ pretty (length (accessibleElements d)) +:+ " accessible, "
       +:+ pretty (length (interactiveElements d)) +:+ " interactive"
  else "Success - Screenshot captured but one or more elements NOT found".

(** ** Further vocabulary *)

(** [m] returns from every world. *)
Definition never_throws (B : Browser) {A} (m : M B A) : Prop :=
  forall w, exists a w' t, m w = (Ok a, w', t).

(** When [m] throws, it has dispatched no action. *)
Definition quiet_on_throw (B : Browser) {A} (m : M B A) : Prop :=
  forall w e w' t, m w = (Throw e, w', t) -> targets t = [].

(** The actions [m] dispatches, from any world, satisfy [Q]. *)
Definition dispatches (B : Browser) {A} (Q : list (Node B) -> Prop) (m : M B A) : Prop :=
  forall w, Q (targets (snd (m w))).

(** Every result [m] returns satisfies [Q]. *)
Definition returns (B : Browser) {A} (Q : A -> Prop) (m : M B A) : Prop :=
  forall w a w' t, m w = (Ok a, w', t) -> Q a.

(** At most two actions, all on one element. *)
Definition one_target {N : Type} (l : list N) : Prop :=
  (length l <= 2)%nat /\ forall a b, a ∈ l -> b ∈ l -> a = b.

(** The actions an interaction spec asks for on [element]. *)
Definition actions_of {N : Type} (element : N) (interaction : InteractionSpec.t)
    : list (Event N) :=
  match InteractionSpec.type interaction with
  | click => [EvClick element]
  | focus => [EvFocus element]
  | hover => [EvHover element]
  | keydown =>
      EvFocus element
      :: match InteractionSpec.key interaction with
         | Some key => if String.eqb key "" then [] else [EvPress element key]
         | None => []
         end
  end.

(** A name the analyzer keeps among the aria attributes. *)
Definition aria_name (name : string) : Prop :=
  (exists rest, name = "aria-" +:+ rest) \/ name = "role".

(** The value of the last attribute called [name]. *)
Definition last_value (attrs : list (string * string)) (name : string) : option string :=
  snd <$> List.find (fun a => String.eqb (fst a) name) (rev attrs).

(** The tags of the natively interactive elements. *)
Definition native_interactive (tag : string) : Prop :=
  tag ∈ ["BUTTON"; "A"; "INPUT"; "SELECT"; "TEXTAREA"].

(** A page on which every selector finds the widget and, inside it, the
    button; all the rest is the demo page. *)
Definition form_page : Browser := {|
  World := Demo.world;
  Node := nat;
  page_query sel w := (Ok (Some 0%nat), w);
  elem_query n sel w := Demo.guarded n (if Nat.eqb n 0 then Some 1%nat else None) w;
  elem_isVisible := elem_isVisible Demo.browser;
  elem_evaluate := elem_evaluate Demo.browser;
  page_evaluate := page_evaluate Demo.browser;
  elem_click := elem_click Demo.browser;
  elem_focus := elem_focus Demo.browser;
  elem_hover := elem_hover Demo.browser;
  elem_press := elem_press Demo.browser;
  page_waitForTimeout := page_waitForTimeout Demo.browser;
  Date_now := Date_now Demo.browser;
  getBoundingClientRect := getBoundingClientRect Demo.browser;
  parentElement := parentElement Demo.browser;
  children := children Demo.browser;
  querySelectorAll := querySelectorAll Demo.browser;
  contains := contains Demo.browser;
  el_tagName := el_tagName Demo.browser;
  el_className := el_className Demo.browser;
  el_id := el_id Demo.browser;
  offsetParent_not_null := offsetParent_not_null Demo.browser;
  attributes := attributes Demo.browser;
  activeElement := activeElement Demo.browser;
  tabIndex := tabIndex Demo.browser;
  innerText := innerText Demo.browser
|}.

(** A page with a details panel: a wrapper (node 0) holds a button (node 1)
    and, right under it, a panel [div.panel#details] (node 2) that is shown
    or hidden. The world is whether the panel is shown. From the button,
    the panel is both a sibling and a nearby element. *)
Module Panel.

Definition rect (shown : bool) (n : nat) : DOMRect.t :=
  match n with
  | 0%nat => DOMRect.mk 0 0 130 300 300 130
  | 1%nat => DOMRect.mk 0 0 30 100 100 30
  | 2%nat => if shown then DOMRect.mk 30 0 130 200 200 100 else DOMRect.mk 0 0 0 0 0 0
  | _ => DOMRect.mk 0 0 0 0 0 0
  end.

Definition page : Browser := {|
  World := bool;
  Node := nat;
  page_query sel w := (Ok (Some 0%nat), w);
  elem_query n sel w := (Ok (Some 1%nat), w);
  elem_isVisible n w := (Ok (negb (Nat.eqb n 2) || w), w);
  elem_evaluate n w := (Ok tt, w);
  page_evaluate n w := (Ok tt, w);
  elem_click n w := (Ok tt, if Nat.eqb n 1 then negb w else w);
  elem_focus n w := (Ok tt, w);
  elem_hover n w := (Ok tt, w);
  elem_press n key w := (Ok tt, w);
  page_waitForTimeout ms w := (Ok tt, w);
  Date_now w := (0, w);
  getBoundingClientRect := rect;
  parentElement w n := if Nat.eqb n 0 then None else Some 0%nat;
  children w n := if Nat.eqb n 0 then [1%nat; 2%nat] else [];
  querySelectorAll w sel := if String.eqb sel "div, ul, section" then [0%nat; 2%nat] else [];
  contains w a b := Nat.eqb a b || Nat.eqb a 0;
  el_tagName w n := match n with 1%nat => "BUTTON" | _ => "DIV" end;
  el_className w n := match n with 2%nat => "panel" | _ => "" end;
  el_id w n := match n with 2%nat => "details" | _ => "" end;
  offsetParent_not_null w n := negb (Nat.eqb n 2) || w;
  attributes w n := [];
  activeElement w := None;
  tabIndex w n := match n with 1%nat => 0 | _ => -1 end;
  innerText w n := Some ""
|}.

(** The neighbourhood of the button with the panel shown, and hidden. *)
Definition shown : DomState.t := captureNearbyElements_cb page true 1%nat.
Definition hidden : DomState.t := captureNearbyElements_cb page false 1%nat.

End Panel.

(** * Properties *)

(** ** Strings *)

Lemma append_cons (a : ascii) (s t : string) : String a s +:+ t = String a (s +:+ t).
Proof. reflexivity. Qed.

Lemma prefix_spec (p s : string) :
  String.prefix p s = true <-> exists post, s = p +:+ post.
Proof.
  revert s. induction p as [|a p IH]; intros s.
  - split; [intros _; exists s; reflexivity | by destruct s].
  - destruct s as [|b s]; simpl.
    + split; [discriminate | intros [post H]; rewrite append_cons in H; discriminate].
    + destruct (ascii_dec a b) as [->|Hne].
      * rewrite IH. split; intros [post H]; exists post.
        -- rewrite append_cons. by f_equal.
        -- rewrite append_cons in H. by injection H.
      * split; [discriminate|].
        intros [post H]. rewrite append_cons in H. injection H as ? _. congruence.
Qed.

Lemma includes_eq (s word : string) :
  includes s word =
  String.prefix word s
  || match s with EmptyString => false | String _ rest => includes rest word end.
Proof. by destruct s. Qed.

Lemma includes_spec (s word : string) :
  includes s word = true <-> contains_word s word.
Proof.
  unfold contains_word. induction s as [|a s IH]; rewrite includes_eq.
  - rewrite orb_false_r, prefix_spec. split.
    + intros [post H]. by exists "", post.
    + intros [[|b pre] [post H]]; [by exists post | rewrite append_cons in H; discriminate].
  - rewrite orb_true_iff, prefix_spec, IH. split.
    + intros [[post H]|(pre & post & H)].
      * by exists "", post.
      * exists (String a pre), post. rewrite append_cons. by f_equal.
    + intros ([|b pre] & post & H).
      * left. by exists post.
      * right. rewrite append_cons in H. injection H as -> H. by exists pre, post.
Qed.

(** ** The sibling loop *)

Lemma forEach_sibling_newElements i k f c :
  DomChanges.newElements (forEach_sibling i k f c) = DomChanges.newElements c.
Proof.
  revert k c. induction f as [|b f IH]; intros k c; simpl; [done|].
  rewrite IH. by destruct (i !! k) as [a|]; repeat case_match.
Qed.

Lemma forEach_sibling_interactionType i k f c :
  DomChanges.interactionType (forEach_sibling i k f c) = DomChanges.interactionType c.
Proof.
  revert k c. induction f as [|b f IH]; intros k c; simpl; [done|].
  rewrite IH. by destruct (i !! k) as [a|]; repeat case_match.
Qed.

Lemma forEach_sibling_description i k f c :
  DomChanges.description (forEach_sibling i k f c) = DomChanges.description c.
Proof.
  revert k c. induction f as [|b f IH]; intros k c; simpl; [done|].
  rewrite IH. by destruct (i !! k) as [a|]; repeat case_match.
Qed.

(** One turn of the loop, through [visibility_change] and
    [expansion_change]. *)
Lemma forEach_sibling_cons i k b f c :
  forEach_sibling i k (b :: f) c =
  forEach_sibling i (S k) f
    (DomChanges.mk (DomChanges.newElements c)
       (DomChanges.changedVisibility c
        ++ option_list (a ← i !! k; visibility_change a b))
       (DomChanges.expandedElements c
        ++ option_list (a ← i !! k; expansion_change a b))
       (DomChanges.interactionType c) (DomChanges.description c)).
Proof.
  simpl. f_equal. unfold visibility_change, expansion_change.
  destruct c as [n v e t d]. destruct (i !! k) as [a|]; simpl.
  - by repeat case_match; simpl; rewrite ?app_nil_r.
  - by rewrite !app_nil_r.
Qed.

Lemma elem_of_changedVisibility i f x : forall k c,
  x ∈ DomChanges.changedVisibility (forEach_sibling i k f c) <->
  x ∈ DomChanges.changedVisibility c
  \/ exists j a b, f !! j = Some b /\ i !! (k + j)%nat = Some a
                   /\ visibility_change a b = Some x.
Proof.
  induction f as [|b f IH]; intros k c.
  - simpl. split; [by left|]. intros [H|(j & a & b & H & _)]; [done|].
    by rewrite lookup_nil in H.
  - rewrite forEach_sibling_cons, IH. simpl. rewrite elem_of_app. split.
    + intros [[H|H]|(j & a & b' & Hf & Hi & Hx)].
      * by left.
      * right. exists 0%nat. rewrite Nat.add_0_r.
        destruct (i !! k) as [a|]; simpl in H; [|by apply elem_of_nil in H].
        exists a, b. split; [done|]. split; [done|].
        destruct (visibility_change a b); simpl in H;
          [by apply list_elem_of_singleton in H as ->|by apply elem_of_nil in H].
      * right. exists (S j), a, b'. by rewrite Nat.add_succ_r.
    + intros [H|(j & a & b' & Hf & Hi & Hx)]; [by left; left|].
      destruct j as [|j].
      * left; right. simpl in Hf. injection Hf as ->.
        rewrite Nat.add_0_r in Hi. rewrite Hi. simpl. rewrite Hx. simpl.
        by apply list_elem_of_singleton.
      * right. exists j, a, b'. by rewrite Nat.add_succ_r in Hi.
Qed.

Lemma elem_of_expandedElements i f x : forall k c,
  x ∈ DomChanges.expandedElements (forEach_sibling i k f c) <->
  x ∈ DomChanges.expandedElements c
  \/ exists j a b, f !! j = Some b /\ i !! (k + j)%nat = Some a
                   /\ expansion_change a b = Some x.
Proof.
  induction f as [|b f IH]; intros k c.
  - simpl. split; [by left|]. intros [H|(j & a & b & H & _)]; [done|].
    by rewrite lookup_nil in H.
  - rewrite forEach_sibling_cons, IH. simpl. rewrite elem_of_app. split.
    + intros [[H|H]|(j & a & b' & Hf & Hi & Hx)].
      * by left.
      * right. exists 0%nat. rewrite Nat.add_0_r.
        destruct (i !! k) as [a|]; simpl in H; [|by apply elem_of_nil in H].
        exists a, b. split; [done|]. split; [done|].
        destruct (expansion_change a b); simpl in H;
          [by apply list_elem_of_singleton in H as ->|by apply elem_of_nil in H].
      * right. exists (S j), a, b'. by rewrite Nat.add_succ_r.
    + intros [H|(j & a & b' & Hf & Hi & Hx)]; [by left; left|].
      destruct j as [|j].
      * left; right. simpl in Hf. injection Hf as ->.
        rewrite Nat.add_0_r in Hi. rewrite Hi. simpl. rewrite Hx. simpl.
        by apply list_elem_of_singleton.
      * right. exists j, a, b'. by rewrite Nat.add_succ_r in Hi.
Qed.

(** Final siblings past the end of the initial list are skipped. *)
Lemma forEach_sibling_take_final i f : forall k c,
  forEach_sibling i k f c = forEach_sibling i k (take (length i - k) f) c.
Proof.
  induction f as [|b f IH]; intros k c; [by rewrite take_nil|].
  destruct (decide (k < length i)%nat) as [Hlt|Hge].
  - replace (length i - k)%nat with (S (length i - S k)) by lia.
    rewrite firstn_cons, !forEach_sibling_cons. apply IH.
  - replace (length i - k)%nat with 0%nat by lia.
    rewrite forEach_sibling_cons, IH.
    replace (length i - S k)%nat with 0%nat by lia. simpl.
    rewrite (lookup_ge_None_2 i k) by lia. simpl.
    rewrite !app_nil_r. by destruct c.
Qed.

(** Initial siblings past the end of the final list are never read. *)
Lemma forEach_sibling_take_initial i f n : forall k c,
  (k + length f <= n)%nat ->
  forEach_sibling i k f c = forEach_sibling (take n i) k f c.
Proof.
  induction f as [|b f IH]; intros k c Hn; [done|].
  simpl in Hn. rewrite !forEach_sibling_cons.
  rewrite (lookup_take_lt i n k) by lia. apply IH. lia.
Qed.

(** A final list that repeats the initial one yields nothing. *)
Lemma forEach_sibling_same pre f extra c :
  forEach_sibling (pre ++ f ++ extra) (length pre) f c = c.
Proof.
  revert pre c. induction f as [|b f IH]; intros pre c; [done|].
  rewrite forEach_sibling_cons.
  rewrite lookup_app_r, Nat.sub_diag by lia. simpl.
  unfold visibility_change, expansion_change.
  rewrite eqb_reflx, bool_decide_eq_true_2 by done. simpl. rewrite !app_nil_r.
  replace (pre ++ b :: f ++ extra) with ((pre ++ [b]) ++ f ++ extra)
    by (by rewrite <- app_assoc).
  replace (S (length pre)) with (length (pre ++ [b]))
    by (rewrite length_app; simpl; lia).
  rewrite IH. by destruct c.
Qed.

(** ** New elements *)

Lemma filter_none {A} (p : A -> bool) (l : list A) :
  (forall x, x ∈ l -> p x = false) -> List.filter p l = [].
Proof.
  induction l as [|x l IH]; intros H; simpl; [done|].
  rewrite (H x) by apply list_elem_of_here.
  apply IH. intros y Hy. apply H. by apply list_elem_of_further.
Qed.

Lemma wasVisible_here (l : list Nearby.t) (e : Nearby.t) :
  e ∈ l -> wasVisible l e = true.
Proof.
  intros H. unfold wasVisible. apply existsb_exists. exists e.
  split; [by apply list_elem_of_In|].
  rewrite !String.eqb_refl, Z.sub_diag. reflexivity.
Qed.

(** The classification leaves the three lists as the two loops filled
    them. *)
Lemma analyzeDomChanges_lists i f :
  DomChanges.newElements (analyzeDomChanges i f) = DomChanges.newElements (collected i f)
  /\ DomChanges.changedVisibility (analyzeDomChanges i f)
     = DomChanges.changedVisibility (collected i f)
  /\ DomChanges.expandedElements (analyzeDomChanges i f)
     = DomChanges.expandedElements (collected i f).
Proof.
  unfold analyzeDomChanges. fold (collected i f).
  by repeat case_match.
Qed.

Lemma collected_newElements i f :
  DomChanges.newElements (collected i f) =
  List.filter
    (fun e => negb (wasVisible (List.filter Nearby.isVisible (DomState.nearbyElements i)) e))
    (List.filter Nearby.isVisible (DomState.nearbyElements f)).
Proof. unfold collected. by rewrite forEach_sibling_newElements. Qed.

Lemma collected_type i f :
  DomChanges.interactionType (collected i f) = none
  /\ DomChanges.description (collected i f) = "".
Proof.
  unfold collected.
  by rewrite forEach_sibling_interactionType, forEach_sibling_description.
Qed.

Lemma elem_of_newElements i f e :
  e ∈ DomChanges.newElements (analyzeDomChanges i f) ->
  e ∈ DomState.nearbyElements f /\ Nearby.isVisible e = true.
Proof.
  destruct (analyzeDomChanges_lists i f) as (-> & _ & _).
  rewrite collected_newElements, !list_elem_of_In, !filter_In. tauto.
Qed.

Lemma collected_unchanged i f :
  (forall e, e ∈ DomState.nearbyElements f -> Nearby.isVisible e = true ->
             e ∈ DomState.nearbyElements i) ->
  DomState.siblings f `prefix_of` DomState.siblings i ->
  collected i f = no_changes.
Proof.
  intros Hnear [extra Hsib]. unfold collected.
  rewrite filter_none.
  - rewrite Hsib. apply (forEach_sibling_same [] (DomState.siblings f) extra).
  - intros e He. apply list_elem_of_In, filter_In in He as [He Hv].
    apply negb_false_iff, wasVisible_here, list_elem_of_In, filter_In.
    split; [|done]. apply list_elem_of_In, Hnear; [|done]. by apply list_elem_of_In.
Qed.

Lemma analyzeDomChanges_unchanged i f :
  (forall e, e ∈ DomState.nearbyElements f -> Nearby.isVisible e = true ->
             e ∈ DomState.nearbyElements i) ->
  DomState.siblings f `prefix_of` DomState.siblings i ->
  analyzeDomChanges i f = no_changes.
Proof.
  intros Hnear Hsib. unfold analyzeDomChanges. fold (collected i f).
  by rewrite collected_unchanged.
Qed.

(** The cascade, on the booleans the code tests. *)
Lemma interactionType_cascade i f :
  DomChanges.interactionType (analyzeDomChanges i f) =
  match DomChanges.newElements (analyzeDomChanges i f) with
  | e :: _ =>
      if String.eqb (Nearby.tagName e) "UL" || includes (Nearby.className e) "dropdown"
         || includes (Nearby.className e) "menu"
      then dropdown
      else if includes (Nearby.className e) "modal" || includes (Nearby.className e) "dialog"
      then modal
      else if String.eqb (Nearby.tagName e) "INPUT" || includes (Nearby.className e) "input"
      then input_expansion
      else content_expansion
  | [] =>
      match DomChanges.changedVisibility (analyzeDomChanges i f) with
      | _ :: _ => visibility_toggle
      | [] =>
          match DomChanges.expandedElements (analyzeDomChanges i f) with
          | _ :: _ => aria_expansion
          | [] => none
          end
      end
  end.
Proof.
  destruct (analyzeDomChanges_lists i f) as (-> & -> & ->).
  unfold analyzeDomChanges. fold (collected i f).
  destruct (collected_type i f) as [Ht _].
  by repeat case_match.
Qed.

Lemma dropdown_like_spec e :
  String.eqb (Nearby.tagName e) "UL" || includes (Nearby.className e) "dropdown"
  || includes (Nearby.className e) "menu" = true <-> dropdown_like e.
Proof.
  unfold dropdown_like.
  rewrite !orb_true_iff, String.eqb_eq, !includes_spec. tauto.
Qed.

Lemma modal_like_spec e :
  includes (Nearby.className e) "modal" || includes (Nearby.className e) "dialog" = true
  <-> modal_like e.
Proof. unfold modal_like. by rewrite !orb_true_iff, !includes_spec. Qed.

Lemma input_like_spec e :
  String.eqb (Nearby.tagName e) "INPUT" || includes (Nearby.className e) "input" = true
  <-> input_like e.
Proof. unfold input_like. by rewrite !orb_true_iff, String.eqb_eq, !includes_spec. Qed.

(** ** The diff analyzer *)

(** C6. Diffing a snapshot against itself reports nothing: the type is
    ['none'], the description is empty and the three change lists are
    empty. *)
Theorem analyzeDomChanges_same (s : DomState.t) :
  DomChanges.interactionType (analyzeDomChanges s s) = none
  /\ DomChanges.description (analyzeDomChanges s s) = ""
  /\ DomChanges.newElements (analyzeDomChanges s s) = []
  /\ DomChanges.changedVisibility (analyzeDomChanges s s) = []
  /\ DomChanges.expandedElements (analyzeDomChanges s s) = [].
Proof. by rewrite analyzeDomChanges_unchanged. Qed.

(** C5. The type of the report is decided by a cascade in which the first
    rule that applies wins. When there is a new element the first one is
    inspected: the tag [UL] or a class containing "dropdown" or "menu" gives
    ['dropdown']; otherwise a class containing "modal" or "dialog" gives
    ['modal']; otherwise the tag [INPUT] or a class containing "input" gives
    ['input_expansion']; otherwise ['content_expansion']. With no new
    element, a sibling visibility change gives ['visibility_toggle'];
    with none of those either, an aria-expanded change gives
    ['aria_expansion']; otherwise the type is ['none']. In particular a
    first new element that looks like a dropdown wins over a sibling
    visibility toggle. *)
Theorem analyzeDomChanges_classification (i f : DomState.t) :
  let r := analyzeDomChanges i f in
  (forall e rest, DomChanges.newElements r = e :: rest ->
     (dropdown_like e -> DomChanges.interactionType r = dropdown)
     /\ (~ dropdown_like e -> modal_like e -> DomChanges.interactionType r = modal)
     /\ (~ dropdown_like e -> ~ modal_like e -> input_like e ->
         DomChanges.interactionType r = input_expansion)
     /\ (~ dropdown_like e -> ~ modal_like e -> ~ input_like e ->
         DomChanges.interactionType r = content_expansion))
  /\ (DomChanges.newElements r = [] -> DomChanges.changedVisibility r <> [] ->
      DomChanges.interactionType r = visibility_toggle)
  /\ (DomChanges.newElements r = [] -> DomChanges.changedVisibility r = [] ->
      DomChanges.expandedElements r <> [] ->
      DomChanges.interactionType r = aria_expansion)
  /\ (DomChanges.newElements r = [] -> DomChanges.changedVisibility r = [] ->
      DomChanges.expandedElements r = [] ->
      DomChanges.interactionType r = none)
  /\ (forall e rest, DomChanges.newElements r = e :: rest -> dropdown_like e ->
      DomChanges.changedVisibility r <> [] ->
      DomChanges.interactionType r = dropdown).
Proof.
  intros r. subst r. rewrite (interactionType_cascade i f).
  assert (forall e rest,
    DomChanges.newElements (analyzeDomChanges i f) = e :: rest ->
    (dropdown_like e -> DomChanges.interactionType (analyzeDomChanges i f) = dropdown)
    /\ (~ dropdown_like e -> modal_like e ->
        DomChanges.interactionType (analyzeDomChanges i f) = modal)
    /\ (~ dropdown_like e -> ~ modal_like e -> input_like e ->
        DomChanges.interactionType (analyzeDomChanges i f) = input_expansion)
    /\ (~ dropdown_like e -> ~ modal_like e -> ~ input_like e ->
        DomChanges.interactionType (analyzeDomChanges i f) = content_expansion)) as Hnew.
  { intros e rest H. rewrite (interactionType_cascade i f), H.
    pose proof (dropdown_like_spec e) as Hd.
    pose proof (modal_like_spec e) as Hm.
    pose proof (input_like_spec e) as Hi.
    destruct (String.eqb (Nearby.tagName e) "UL" || includes (Nearby.className e) "dropdown"
              || includes (Nearby.className e) "menu");
      destruct (includes (Nearby.className e) "modal"
                || includes (Nearby.className e) "dialog");
      destruct (String.eqb (Nearby.tagName e) "INPUT"
                || includes (Nearby.className e) "input");
      intuition discriminate. }
  rewrite <- (interactionType_cascade i f).
  split; [exact Hnew|].
  rewrite (interactionType_cascade i f).
  split; [|split; [|split]].
  - intros -> Hv. by destruct (DomChanges.changedVisibility _).
  - intros -> -> He. by destruct (DomChanges.expandedElements _).
  - by intros -> -> ->.
  - intros e rest H Hd _. rewrite <- (interactionType_cascade i f).
    by apply (Hnew e rest H).
Qed.

Lemma analyzeDomChanges_classification_witness :
  (DomChanges.changedVisibility (analyzeDomChanges Demo.before Demo.after) <> []
   /\ DomChanges.interactionType (analyzeDomChanges Demo.before Demo.after) = dropdown)
  /\ DomChanges.interactionType (analyzeDomChanges Demo.nothing (Demo.showing Demo.panel))
     = modal
  /\ DomChanges.interactionType (analyzeDomChanges Demo.nothing (Demo.showing Demo.search))
     = input_expansion
  /\ DomChanges.interactionType (analyzeDomChanges Demo.nothing (Demo.showing Demo.footer))
     = content_expansion
  /\ DomChanges.interactionType
       (analyzeDomChanges (Demo.among [Demo.hint]) (Demo.among [Demo.hidden]))
     = visibility_toggle
  /\ DomChanges.interactionType
       (analyzeDomChanges (Demo.among [Demo.trigger]) (Demo.among [Demo.expanded]))
     = aria_expansion
  /\ DomChanges.interactionType (analyzeDomChanges Demo.nothing Demo.nothing) = none.
Proof.
  assert (forall s word, includes s word = false -> ~ contains_word s word) as Hnot.
  { intros s word H Hc%includes_spec. congruence. }
  split; [|split; [|split; [|split; [|split; [|split]]]]].
  - split; [discriminate|].
    apply (proj2 (proj2 (proj2 (proj2
             (analyzeDomChanges_classification Demo.before Demo.after))))
           Demo.menu [Demo.panel]).
    + reflexivity.
    + right; left. exists "nav ", "-list". reflexivity.
    + discriminate.
  - apply (proj1 (analyzeDomChanges_classification Demo.nothing (Demo.showing Demo.panel))
             Demo.panel []); [reflexivity| |].
    + intros [H|[H|H]]; [discriminate|revert H; by apply Hnot..].
    + left. exists "", "". reflexivity.
  - apply (proj1 (analyzeDomChanges_classification Demo.nothing (Demo.showing Demo.search))
             Demo.search []); [reflexivity| | |].
    + intros [H|[H|H]]; [discriminate|revert H; by apply Hnot..].
    + intros [H|H]; revert H; by apply Hnot.
    + right. exists "search-", "". reflexivity.
  - apply (proj1 (analyzeDomChanges_classification Demo.nothing (Demo.showing Demo.footer))
             Demo.footer []); [reflexivity| | |].
    + intros [H|[H|H]]; [discriminate|revert H; by apply Hnot..].
    + intros [H|H]; revert H; by apply Hnot.
    + intros [H|H]; [discriminate|revert H; by apply Hnot].
  - apply (proj1 (proj2 (analyzeDomChanges_classification
                           (Demo.among [Demo.hint]) (Demo.among [Demo.hidden])))).
    + reflexivity.
    + discriminate.
  - apply (proj1 (proj2 (proj2 (analyzeDomChanges_classification
                                  (Demo.among [Demo.trigger])
                                  (Demo.among [Demo.expanded]))))).
    + reflexivity.
    + reflexivity.
    + discriminate.
  - apply (proj1 (proj2 (proj2 (proj2 (analyzeDomChanges_classification
                                         Demo.nothing Demo.nothing)))));
      reflexivity.
Defined.

(** Only the first new element is inspected: a menu that appears after a
    modal panel does not make the report a ['dropdown']. *)
Example first_new_element_decides :
  DomChanges.interactionType
    (analyzeDomChanges Demo.nothing
       (DomState.mk (ElementPosition.mk 0 0 40 300) (Some "DIV") []
          [Demo.panel; Demo.menu]))
  = modal.
Proof. reflexivity. Qed.

Lemma analyzeDomChanges_truncate i f :
  let n := Nat.min (length (DomState.siblings i)) (length (DomState.siblings f)) in
  analyzeDomChanges i f =
  analyzeDomChanges (with_siblings i (take n (DomState.siblings i)))
    (with_siblings f (take n (DomState.siblings f))).
Proof.
  intros n.
  assert (collected i f =
          collected (with_siblings i (take n (DomState.siblings i)))
            (with_siblings f (take n (DomState.siblings f)))) as H.
  { unfold collected, with_siblings. simpl.
    rewrite forEach_sibling_take_final, Nat.sub_0_r.
    replace (take (length (DomState.siblings i)) (DomState.siblings f))
      with (take n (DomState.siblings f)).
    - apply forEach_sibling_take_initial. rewrite length_take. lia.
    - subst n. destruct (decide (length (DomState.siblings i)
                                 <= length (DomState.siblings f))%nat).
      + by rewrite Nat.min_l.
      + rewrite Nat.min_r by lia. by rewrite !take_ge by lia. }
  unfold analyzeDomChanges.
  fold (collected i f).
  fold (collected (with_siblings i (take n (DomState.siblings i)))
          (with_siblings f (take n (DomState.siblings f)))).
  by rewrite <- H.
Qed.

(** C10, as amended. The diff has no rule for removals. Sibling visibility
    and aria-expanded changes are compared index by index, for the indices
    present in both sibling lists: every entry pairs the final sibling at
    an index with the initial sibling at the same index, and the whole
    report is the one obtained with both sibling lists cut to the shorter
    length, so final siblings past the end of the initial list are skipped
    and initial siblings past the end of the final list are never looked
    at. The new elements are visible nearby elements of the final
    snapshot, so a nearby element that is absent or invisible after the
    interaction is not among the new elements. When nearby elements and
    trailing siblings are only removed, nothing is reported. *)
Theorem analyzeDomChanges_no_removals (i f : DomState.t) :
  let r := analyzeDomChanges i f in
  (forall x, x ∈ DomChanges.changedVisibility r <->
     exists k a b, DomState.siblings i !! k = Some a
                   /\ DomState.siblings f !! k = Some b
                   /\ visibility_change a b = Some x)
  /\ (forall x, x ∈ DomChanges.expandedElements r <->
        exists k a b, DomState.siblings i !! k = Some a
                      /\ DomState.siblings f !! k = Some b
                      /\ expansion_change a b = Some x)
  /\ (let n := Nat.min (length (DomState.siblings i)) (length (DomState.siblings f)) in
      r = analyzeDomChanges (with_siblings i (take n (DomState.siblings i)))
            (with_siblings f (take n (DomState.siblings f))))
  /\ (forall e, e ∈ DomChanges.newElements r ->
        e ∈ DomState.nearbyElements f /\ Nearby.isVisible e = true)
  /\ ((forall e, e ∈ DomState.nearbyElements f -> Nearby.isVisible e = true ->
                 e ∈ DomState.nearbyElements i) ->
      DomState.siblings f `prefix_of` DomState.siblings i ->
      r = no_changes).
Proof.
  intros r. subst r.
  destruct (analyzeDomChanges_lists i f) as (_ & Hv & He).
  split; [|split; [|split; [|split]]].
  - intros x. rewrite Hv. unfold collected. rewrite elem_of_changedVisibility. simpl.
    split.
    + intros [H|(j & a & b & Hf & Hi & Hx)]; [by apply elem_of_nil in H|].
      by exists j, a, b.
    + intros (k & a & b & Hi & Hf & Hx). right. by exists k, a, b.
  - intros x. rewrite He. unfold collected. rewrite elem_of_expandedElements. simpl.
    split.
    + intros [H|(j & a & b & Hf & Hi & Hx)]; [by apply elem_of_nil in H|].
      by exists j, a, b.
    + intros (k & a & b & Hi & Hf & Hx). right. by exists k, a, b.
  - apply analyzeDomChanges_truncate.
  - apply elem_of_newElements.
  - apply analyzeDomChanges_unchanged.
Qed.

Lemma analyzeDomChanges_no_removals_witness :
  analyzeDomChanges Demo.after Demo.collapsed = no_changes.
Proof.
  apply (analyzeDomChanges_no_removals Demo.after Demo.collapsed).
  - intros e He _. apply list_elem_of_singleton in He as ->.
    unfold Demo.after. simpl. do 2 apply list_elem_of_further. apply list_elem_of_here.
  - by eexists.
Defined.

(** C10, as first stated, fails twice. A sibling removed from the front
    of the list is reported: the siblings after it move up by one index
    and are compared with other siblings, here a hidden hint with the
    button that stood before it. And a nearby element that was visible
    before and is absent after does appear in a change list when it is a
    sibling too: the panel hidden beside the button is gone from the
    nearby elements and listed among the visibility changes. *)
Lemma removals_can_be_reported :
  ~ (forall i f : DomState.t,
       DomState.siblings f `sublist_of` DomState.siblings i ->
       DomState.nearbyElements f = DomState.nearbyElements i ->
       DomChanges.changedVisibility (analyzeDomChanges i f) = []
       /\ DomChanges.expandedElements (analyzeDomChanges i f) = [])
  /\ DomChanges.interactionType
       (analyzeDomChanges (Demo.among [Demo.trigger; Demo.hidden]) (Demo.among [Demo.hidden]))
     = visibility_toggle
  /\ exists e x,
       e ∈ DomState.nearbyElements Panel.shown
       /\ Nearby.isVisible e = true
       /\ DomState.nearbyElements Panel.hidden = []
       /\ x ∈ DomChanges.changedVisibility (analyzeDomChanges Panel.shown Panel.hidden)
       /\ Sibling.tagName (VisibilityChange.element x) = Nearby.tagName e
       /\ Sibling.className (VisibilityChange.element x) = Nearby.className e
       /\ Sibling.id (VisibilityChange.element x) = Nearby.id e
       /\ VisibilityChange.wasVisible x = true
       /\ VisibilityChange.nowVisible x = false.
Proof.
  split; [|split].
  - intros H.
    destruct (H (Demo.among [Demo.trigger; Demo.hidden]) (Demo.among [Demo.hidden]))
      as [Hv _].
    + simpl. apply sublist_cons_r. left. reflexivity.
    + reflexivity.
    + discriminate Hv.
  - reflexivity.
  - exists (Nearby.mk "DIV" "panel" "details" true (Position.mk 30 0 200 100)),
      (VisibilityChange.mk (Sibling.mk "DIV" "panel" "details" false false None) true false).
    split; [apply list_elem_of_here|].
    split; [reflexivity|]. split; [reflexivity|].
    split; [apply list_elem_of_here|].
    by repeat split.
Qed.

(** ** The scorer *)

Lemma score_failure sc d : calculateAccessibilityScore sc false d = Ok 0.
Proof. reflexivity. Qed.

Lemma score_success sc d :
  exists n, calculateAccessibilityScore sc true (Some d) = Ok n /\ 50 <= n <= 100.
Proof.
  unfold calculateAccessibilityScore. simpl. eexists. split; [reflexivity|].
  repeat case_match; lia.
Qed.

Lemma none_no_expansion i f :
  DomChanges.interactionType (analyzeDomChanges i f) = none ->
  DomChanges.expandedElements (analyzeDomChanges i f) = [].
Proof.
  rewrite (interactionType_cascade i f). by repeat case_match.
Qed.

Lemma score_analyzed sc i f :
  calculateAccessibilityScore sc true (Some (analyzeDomChanges i f))
  = Ok (score_formula sc (analyzeDomChanges i f)).
Proof.
  pose proof (none_no_expansion i f) as Hnone.
  unfold calculateAccessibilityScore, score_formula, bonus. simpl. f_equal.
  destruct (DomChanges.interactionType (analyzeDomChanges i f)); simpl;
    try rewrite Hnone by done;
    destruct (DomChanges.expandedElements (analyzeDomChanges i f)); simpl;
    repeat case_match; lia.
Qed.

(** ** Runs of the monad *)

Section Runs.
Context (B : Browser).

#[local] Abbreviation World := (World B).
#[local] Abbreviation Node := (Node B).

Lemma bind_ok {A C} (m : M B A) (k : A -> M B C) w a w1 t1 r w2 t2 t :
  m w = (Ok a, w1, t1) -> k a w1 = (r, w2, t2) -> t = t1 ++ t2 ->
  bind B m k w = (r, w2, t).
Proof. intros H Hk ->. unfold bind. by rewrite H, Hk. Qed.

Lemma bind_throw {A C} (m : M B A) (k : A -> M B C) w e w1 t1 :
  m w = (Throw e, w1, t1) -> bind B m k w = (Throw e, w1, t1).
Proof. intros H. unfold bind. by rewrite H. Qed.

Lemma bind_ok_inv {A C} (m : M B A) (k : A -> M B C) w c w' t :
  bind B m k w = (Ok c, w', t) ->
  exists a w1 t1 t2, m w = (Ok a, w1, t1) /\ k a w1 = (Ok c, w', t2) /\ t = t1 ++ t2.
Proof.
  unfold bind. destruct (m w) as [[[a|e] w1] t1]; [|discriminate].
  destruct (k a w1) as [[r w2] t2] eqn:Hk. intros [= -> -> <-].
  by exists a, w1, t1, t2.
Qed.

Lemma bind_throw_inv {A C} (m : M B A) (k : A -> M B C) w e w' t :
  bind B m k w = (Throw e, w', t) ->
  m w = (Throw e, w', t)
  \/ exists a w1 t1 t2, m w = (Ok a, w1, t1) /\ k a w1 = (Throw e, w', t2) /\ t = t1 ++ t2.
Proof.
  unfold bind. destruct (m w) as [[[a|e'] w1] t1]; [|intros [= -> -> ->]; by left].
  destruct (k a w1) as [[r w2] t2] eqn:Hk. intros [= -> -> <-].
  right. by exists a, w1, t1, t2.
Qed.

Lemma now_run w : now B w = (Ok (fst (Date_now B w)), snd (Date_now B w), []).
Proof. unfold now. by destruct (Date_now B w). Qed.

Lemma call_run {A} (e : Event Node) (f : World -> Result A * World) w :
  call B e f w = (fst (f w), snd (f w), [e]).
Proof. unfold call. by destruct (f w). Qed.

(** *** Which elements a computation acts on *)

Lemma targets_app (t1 t2 : list (Event Node)) :
  targets (t1 ++ t2) = targets t1 ++ targets t2.
Proof. apply omap_app. Qed.

Lemma acts_on_ret {A} P (a : A) : acts_on B P (ret B a).
Proof. intros w. constructor. Qed.

Lemma acts_on_lift {A} P (r : Result A) : acts_on B P (lift B r).
Proof. intros w. constructor. Qed.

Lemma acts_on_now P : acts_on B P (now B).
Proof. intros w. rewrite now_run. constructor. Qed.

Lemma acts_on_log P line : acts_on B P (console_log B line).
Proof. intros w. constructor. Qed.

Lemma acts_on_when P c m : acts_on B P m -> acts_on B P (when B c m).
Proof. intros H. destruct c; [done|apply acts_on_ret]. Qed.

Lemma acts_on_bind {A C} P (m : M B A) (k : A -> M B C) :
  acts_on B P m -> (forall a, acts_on B P (k a)) -> acts_on B P (bind B m k).
Proof.
  intros Hm Hk w. specialize (Hm w). unfold bind.
  destruct (m w) as [[[a|e] w1] t1]; simpl in *; [|done].
  specialize (Hk a w1). destruct (k a w1) as [[r w2] t2]; simpl in *.
  rewrite targets_app. by apply Forall_app.
Qed.

Lemma acts_on_try_catch {A} P (m : M B A) (h : string -> M B A) :
  acts_on B P m -> (forall e, acts_on B P (h e)) -> acts_on B P (try_catch B m h).
Proof.
  intros Hm Hh w. specialize (Hm w). unfold try_catch.
  destruct (m w) as [[[a|e] w1] t1]; simpl in *; [done|].
  specialize (Hh e w1). destruct (h e w1) as [[r w2] t2]; simpl in *.
  rewrite targets_app. by apply Forall_app.
Qed.

Lemma acts_on_call {A} P (e : Event Node) (f : World -> Result A * World) :
  (forall n, dispatch_target e = Some n -> P n) -> acts_on B P (call B e f).
Proof.
  intros H w. rewrite call_run. unfold targets. simpl.
  destruct (dispatch_target e) as [n|]; repeat constructor. by apply H.
Qed.

Lemma acts_on_evaluate {A} P el (cb : World -> Node -> A) : acts_on B P (evaluate B el cb).
Proof.
  intros w. unfold evaluate. destruct (elem_evaluate B el w) as [[u|e] w1]; constructor.
Qed.

Lemma acts_on_page_eval {A} P el (cb : World -> Node -> A) : acts_on B P (page_eval B el cb).
Proof.
  intros w. unfold page_eval. destruct (page_evaluate B el w) as [[u|e] w1]; constructor.
Qed.

Lemma acts_on_analyzeAccessibility P el : acts_on B P (analyzeAccessibility B el).
Proof.
  unfold analyzeAccessibility.
  repeat (apply acts_on_bind; [|intros ?]);
    try apply acts_on_evaluate; try apply acts_on_ret.
  by apply acts_on_call.
Qed.

Lemma acts_on_captureNearbyElements P el : acts_on B P (captureNearbyElements B el).
Proof. apply acts_on_page_eval. Qed.

Lemma acts_on_dispatch el it : acts_on B (eq el) (dispatch B el it).
Proof.
  unfold dispatch. destruct (InteractionSpec.type it).
  1-3: by apply acts_on_call; intros n [= ->].
  apply acts_on_bind; [by apply acts_on_call; intros n [= ->]|intros _].
  case_match; [by apply acts_on_call; intros n [= ->]|apply acts_on_ret].
Qed.

Lemma acts_on_interaction_body el it s0 : acts_on B (eq el) (interaction_body B el it s0).
Proof.
  unfold interaction_body.
  apply acts_on_bind; [apply acts_on_evaluate|intros ?].
  apply acts_on_bind; [apply acts_on_dispatch|intros ?].
  apply acts_on_bind; [by apply acts_on_call|intros ?].
  apply acts_on_bind; [apply acts_on_captureNearbyElements|intros ?].
  apply acts_on_bind; [apply acts_on_evaluate|intros ?].
  apply acts_on_ret.
Qed.

Lemma acts_on_testInteraction el it s0 :
  acts_on B (eq el) (testInteractionWithDomAnalysis B el it s0).
Proof.
  unfold testInteractionWithDomAnalysis.
  apply acts_on_bind; [apply acts_on_now|intros ?].
  apply acts_on_bind.
  - apply acts_on_try_catch; [|intros ?; apply acts_on_ret].
    apply acts_on_bind; [apply acts_on_interaction_body|intros ?; apply acts_on_ret].
  - intros [[[success error] stateChange] domChanges].
    apply acts_on_bind; [apply acts_on_now|intros ?].
    apply acts_on_bind; [apply acts_on_lift|intros ?; apply acts_on_ret].
Qed.

(** *** The executor, by the outcome of its [try] block *)

Lemma testInteraction_completed el it s0 w d sc w2 t :
  interaction_body B el it s0 (snd (Date_now B w)) = (Ok (d, sc), w2, t) ->
  exists n,
    calculateAccessibilityScore (Some sc) true (Some d) = Ok n
    /\ testInteractionWithDomAnalysis B el it s0 w =
       (Ok (InteractionResult.mk (InteractionSpec.type it) true None
              (fst (Date_now B w2) - fst (Date_now B w)) (Some sc) n,
            Some d),
        snd (Date_now B w2), t).
Proof.
  intros H. destruct (score_success (Some sc) d) as (n & Hn & _).
  exists n. split; [done|].
  unfold testInteractionWithDomAnalysis, bind, try_catch, now, lift, ret.
  destruct (Date_now B w) as [t0 w1]. simpl in *. rewrite H.
  destruct (Date_now B w2) as [t1 w3]. cbn [fst snd]. rewrite Hn.
  by rewrite ?app_nil_r.
Qed.

Lemma testInteraction_failed el it s0 w e w2 t :
  interaction_body B el it s0 (snd (Date_now B w)) = (Throw e, w2, t) ->
  testInteractionWithDomAnalysis B el it s0 w =
  (Ok (InteractionResult.mk (InteractionSpec.type it) false (Some e)
         (fst (Date_now B w2) - fst (Date_now B w)) None 0,
       None),
   snd (Date_now B w2), t).
Proof.
  intros H.
  unfold testInteractionWithDomAnalysis, bind, try_catch, now, lift, ret.
  destruct (Date_now B w) as [t0 w1]. simpl in *. rewrite H.
  destruct (Date_now B w2) as [t1 w3]. simpl.
  by rewrite ?app_nil_r.
Qed.

(** *** Inversion of the primitive steps *)

Lemma evaluate_ok_inv {A} el (cb : World -> Node -> A) w a w' t :
  evaluate B el cb w = (Ok a, w', t) ->
  elem_evaluate B el w = (Ok tt, w') /\ a = cb w' el /\ t = [EvEvaluate el].
Proof.
  unfold evaluate. destruct (elem_evaluate B el w) as [[[]|e] w1]; [|discriminate].
  by intros [= <- <- <-].
Qed.

Lemma page_eval_ok_inv {A} el (cb : World -> Node -> A) w a w' t :
  page_eval B el cb w = (Ok a, w', t) ->
  page_evaluate B el w = (Ok tt, w') /\ a = cb w' el /\ t = [EvPageEvaluate el].
Proof.
  unfold page_eval. destruct (page_evaluate B el w) as [[[]|e] w1]; [|discriminate].
  by intros [= <- <- <-].
Qed.

Lemma call_ok_inv {A} (e : Event Node) (f : World -> Result A * World) w a w' t :
  call B e f w = (Ok a, w', t) -> f w = (Ok a, w') /\ t = [e].
Proof. rewrite call_run. destruct (f w) as [r w1]. simpl. by intros [= -> -> <-]. Qed.

Lemma dispatch_ok_inv el it w u w' t :
  dispatch B el it w = (Ok u, w', t) -> captures t = [] /\ targets t <> [].
Proof.
  unfold dispatch. destruct (InteractionSpec.type it).
  1-3: by intros [_ ->]%call_ok_inv.
  intros (a & w1 & t1 & t2 & [_ ->]%call_ok_inv & H & ->)%bind_ok_inv.
  destruct (truthy (InteractionSpec.key it)).
  - by apply call_ok_inv in H as [_ ->].
  - by injection H as _ _ <-.
Qed.

Lemma interaction_body_ok_inv el it s0 w d sc w' t :
  interaction_body B el it s0 w = (Ok (d, sc), w', t) ->
  exists wq wf,
    page_evaluate B el wq = (Ok tt, wf)
    /\ d = analyzeDomChanges s0 (captureNearbyElements_cb B wf el)
    /\ captures t = [el]
    /\ targets t <> [].
Proof.
  unfold interaction_body.
  intros (a1 & w1 & t1 & ? & (_ & _ & ->)%evaluate_ok_inv & H & ->)%bind_ok_inv.
  apply bind_ok_inv in H as (a2 & w2 & t2 & ? & [Hc Ht]%dispatch_ok_inv & H & ->).
  apply bind_ok_inv in H as (a3 & w3 & t3 & ? & [_ ->]%call_ok_inv & H & ->).
  apply bind_ok_inv in H as (a4 & w4 & t4 & ? & H4 & H & ->).
  apply page_eval_ok_inv in H4 as (H4 & -> & ->).
  apply bind_ok_inv in H as (a5 & w5 & t5 & ? & (_ & _ & ->)%evaluate_ok_inv & H & ->).
  injection H as <- _ _ <-.
  exists w3, w4. split; [done|]. split; [done|]. split.
  - unfold captures in *. rewrite !omap_app, Hc. reflexivity.
  - unfold targets in *. rewrite !omap_app. simpl. by rewrite app_nil_r.
Qed.

(** The executor returns, whatever its [try] block did. *)
Lemma testInteraction_total el it s0 w :
  exists r dc w' t,
    testInteractionWithDomAnalysis B el it s0 w = (Ok (r, dc), w', t)
    /\ 0 <= InteractionResult.accessibilityScore r <= 100
    /\ (InteractionResult.success r = false ->
        InteractionResult.accessibilityScore r = 0).
Proof.
  destruct (interaction_body B el it s0 (snd (Date_now B w)))
    as [[[[d sc]|e] w2] t] eqn:Hbody.
  - destruct (testInteraction_completed el it s0 w d sc w2 t Hbody) as (n & Hn & ->).
    destruct (score_success (Some sc) d) as (n' & Hn' & Hrange).
    assert (n' = n) as -> by congruence.
    do 4 eexists. split; [reflexivity|]. simpl. split; [lia|done].
  - rewrite (testInteraction_failed el it s0 w e w2 t Hbody).
    do 4 eexists. split; [reflexivity|]. simpl. split; [lia|done].
Qed.

(** A successful outcome comes with a report of the diff analyzer,
    taken against [initialDomState]. *)
Lemma testInteraction_success_inv el it s0 w r dc w' t :
  testInteractionWithDomAnalysis B el it s0 w = (Ok (r, dc), w', t) ->
  InteractionResult.success r = true ->
  exists sc wq wf,
    page_evaluate B el wq = (Ok tt, wf)
    /\ dc = Some (analyzeDomChanges s0 (captureNearbyElements_cb B wf el))
    /\ InteractionResult.stateChange r = Some sc
    /\ calculateAccessibilityScore (Some sc) true dc
       = Ok (InteractionResult.accessibilityScore r)
    /\ captures t = [el]
    /\ targets t <> [].
Proof.
  destruct (interaction_body B el it s0 (snd (Date_now B w)))
    as [[[[d sc]|e] w2] t2] eqn:Hbody.
  - destruct (testInteraction_completed el it s0 w d sc w2 t2 Hbody) as (n & Hn & ->).
    intros [= <- <- <- <-] _. simpl.
    apply interaction_body_ok_inv in Hbody as (wq & wf & Hq & -> & Hc & Ht).
    by exists sc, wq, wf.
  - rewrite (testInteraction_failed el it s0 w e w2 t2 Hbody).
    by intros [= <- <- <- <-].
Qed.

End Runs.

(** ** The scorer and the executor *)

(** C1. Every score is between 0 and 100, and the score of a failed
    interaction is 0: for the scorer on any state change, any success flag
    and any diff report, for the scorer on a failure whatever the report
    (the executor passes [null]), and for the outcome the executor returns
    from any world. *)
Theorem accessibilityScore_range :
  (forall sc success d,
     exists n, calculateAccessibilityScore sc success (Some d) = Ok n
               /\ 0 <= n <= 100 /\ (success = false -> n = 0))
  /\ (forall sc d, calculateAccessibilityScore sc false d = Ok 0)
  /\ (forall B el it s0 w,
        exists r dc w' t,
          testInteractionWithDomAnalysis B el it s0 w = (Ok (r, dc), w', t)
          /\ 0 <= InteractionResult.accessibilityScore r <= 100
          /\ (InteractionResult.success r = false ->
              InteractionResult.accessibilityScore r = 0)).
Proof.
  split; [|split].
  - intros sc [] d.
    + destruct (score_success sc d) as (n & Hn & Hr). exists n. split; [done|].
      split; [lia|discriminate].
    + exists 0. by rewrite score_failure.
  - apply score_failure.
  - apply testInteraction_total.
Qed.

Lemma accessibilityScore_range_witness :
  exists r dc w' t,
    testInteractionWithDomAnalysis Demo.browser 4%nat Demo.clickSpec Demo.before Demo.start
    = (Ok (r, dc), w', t)
    /\ InteractionResult.success r = false
    /\ InteractionResult.accessibilityScore r = 0.
Proof.
  destruct (proj2 (proj2 accessibilityScore_range)
              Demo.browser 4%nat Demo.clickSpec Demo.before Demo.start)
    as (r & dc & w' & t & Hrun & _ & Hzero).
  exists r, dc, w', t. split; [exact Hrun|].
  assert (InteractionResult.success r = false) as Hfail.
  { vm_compute in Hrun. by injection Hrun as <- _ _ _. }
  split; [exact Hfail|exact (Hzero Hfail)].
Defined.

(** C4. The score of a success is 50, plus 20 when the focus changed, 15
    when aria-expanded changed, 10 when aria-pressed changed, 5 when
    aria-selected changed, 10 when the type of the diff report is not
    ['none'] and 5 more when the report has an aria-expansion, the total
    capped at 100: for the scorer on every report of the diff analyzer, and
    for every successful outcome of the executor. A success whose report is
    classified ['dropdown'] scores at least 60. *)
Theorem accessibilityScore_of_success :
  (forall sc i f,
     calculateAccessibilityScore sc true (Some (analyzeDomChanges i f))
     = Ok (score_formula sc (analyzeDomChanges i f)))
  /\ (forall sc i f,
        DomChanges.interactionType (analyzeDomChanges i f) = dropdown ->
        60 <= score_formula sc (analyzeDomChanges i f))
  /\ (forall B el it s0 w r dc w' t,
        testInteractionWithDomAnalysis B el it s0 w = (Ok (r, dc), w', t) ->
        InteractionResult.success r = true ->
        exists d,
          dc = Some d
          /\ InteractionResult.accessibilityScore r
             = score_formula (InteractionResult.stateChange r) d
          /\ (DomChanges.interactionType d = dropdown ->
              60 <= InteractionResult.accessibilityScore r)).
Proof.
  assert (forall sc i f,
    DomChanges.interactionType (analyzeDomChanges i f) = dropdown ->
    60 <= score_formula sc (analyzeDomChanges i f)) as Hdrop.
  { intros sc i f Ht. unfold score_formula, bonus. rewrite Ht. simpl.
    repeat case_match; lia. }
  split; [apply score_analyzed|]. split; [exact Hdrop|].
  intros B el it s0 w r dc w' t Hrun Hok.
  destruct (testInteraction_success_inv B el it s0 w r dc w' t Hrun Hok)
    as (sc & wq & wf & _ & -> & Hsc & Hscore & _).
  eexists. split; [reflexivity|].
  rewrite score_analyzed in Hscore. injection Hscore as Hscore.
  rewrite Hsc, <- Hscore. split; [done|]. apply Hdrop.
Qed.

Lemma accessibilityScore_of_success_witness :
  exists r d w' t,
    testInteractionWithDomAnalysis Demo.browser 1%nat Demo.clickSpec
      (captureNearbyElements_cb Demo.browser Demo.start 0%nat) Demo.start
    = (Ok (r, Some d), w', t)
    /\ DomChanges.interactionType d = dropdown
    /\ InteractionResult.accessibilityScore r = 95
    /\ 60 <= InteractionResult.accessibilityScore r.
Proof.
  destruct (testInteractionWithDomAnalysis Demo.browser 1%nat Demo.clickSpec
              (captureNearbyElements_cb Demo.browser Demo.start 0%nat) Demo.start)
    as [[[[r dc]|e] w'] t] eqn:Hrun; [|by vm_compute in Hrun].
  assert (InteractionResult.success r = true) as Hok.
  { vm_compute in Hrun. by injection Hrun as <- _ _ _. }
  destruct (proj2 (proj2 accessibilityScore_of_success)
              Demo.browser 1%nat Demo.clickSpec _ Demo.start r dc w' t Hrun Hok)
    as (d & -> & Hscore & Hsixty).
  assert (DomChanges.interactionType d = dropdown) as Htype.
  { vm_compute in Hrun. by injection Hrun as _ <- _ _. }
  exists r, d, w', t. split; [reflexivity|]. split; [exact Htype|].
  split; [|exact (Hsixty Htype)].
  vm_compute in Hrun. by injection Hrun as <- _ _ _.
Defined.

(** C3. An exception raised inside the executor's [try] block, be it by
    the read of the state before the interaction, by the dispatch of the
    interaction or by the read of the state after it, does not leave the
    executor: the executor returns, with [success] false, [error] the
    message of the exception, a null [stateChange], a score of 0 and null
    [domChanges]. *)
Theorem testInteraction_catches (B : Browser) (el : Node B) (it : InteractionSpec.t)
    (s0 : DomState.t) (w : World B) :
  let w0 := snd (Date_now B w) in
  let failed e w2 t :=
    testInteractionWithDomAnalysis B el it s0 w =
    (Ok (InteractionResult.mk (InteractionSpec.type it) false (Some e)
           (fst (Date_now B w2) - fst (Date_now B w)) None 0,
         None),
     snd (Date_now B w2), t) in
  (exists r dc w' t, testInteractionWithDomAnalysis B el it s0 w = (Ok (r, dc), w', t))
  /\ (forall e w2 t, interaction_body B el it s0 w0 = (Throw e, w2, t) -> failed e w2 t)
  /\ (forall e w2, elem_evaluate B el w0 = (Throw e, w2) -> failed e w2 [EvEvaluate el])
  /\ (forall w1 e w2 t,
        elem_evaluate B el w0 = (Ok tt, w1) ->
        dispatch B el it w1 = (Throw e, w2, t) ->
        failed e w2 (EvEvaluate el :: t))
  /\ (forall w1 w2 t w3 w4 e w5,
        elem_evaluate B el w0 = (Ok tt, w1) ->
        dispatch B el it w1 = (Ok tt, w2, t) ->
        page_waitForTimeout B 300 w2 = (Ok tt, w3) ->
        page_evaluate B el w3 = (Ok tt, w4) ->
        elem_evaluate B el w4 = (Throw e, w5) ->
        failed e w5
          (EvEvaluate el :: t ++ [EvWait 300; EvPageEvaluate el; EvEvaluate el])).
Proof.
  intros w0 failed. subst w0 failed. cbv beta.
  split; [|split; [|split; [|split]]].
  - destruct (testInteraction_total B el it s0 w) as (r & dc & w' & t & H & _).
    by exists r, dc, w', t.
  - apply testInteraction_failed.
  - intros e w2 H. apply testInteraction_failed.
    unfold interaction_body. apply bind_throw. unfold evaluate. by rewrite H.
  - intros w1 e w2 t H1 H2. apply testInteraction_failed.
    unfold interaction_body.
    eapply bind_ok; [unfold evaluate; rewrite H1; reflexivity| |reflexivity].
    by apply bind_throw.
  - intros w1 w2 t w3 w4 e w5 H1 H2 H3 H4 H5. apply testInteraction_failed.
    unfold interaction_body.
    eapply bind_ok; [unfold evaluate; rewrite H1; reflexivity| |reflexivity].
    eapply bind_ok; [exact H2| |reflexivity].
    eapply bind_ok; [rewrite call_run, H3; reflexivity|cbn [fst snd]|reflexivity].
    eapply bind_ok;
      [unfold captureNearbyElements, page_eval; rewrite H4; reflexivity| |reflexivity].
    apply bind_throw. unfold evaluate. by rewrite H5.
Qed.

Lemma testInteraction_catches_witness :
  testInteractionWithDomAnalysis Demo.browser 4%nat Demo.clickSpec Demo.before Demo.start
  = (Ok (InteractionResult.mk click false (Some Demo.timeout) 1 None 0, None),
     Demo.mkWorld 1002 false None, [EvEvaluate 4%nat; EvClick 4%nat])
  /\ testInteractionWithDomAnalysis Demo.browser 3%nat Demo.hoverSpec Demo.before Demo.start
     = (Ok (InteractionResult.mk hover false (Some Demo.detached) 1 None 0, None),
        Demo.mkWorld 1002 false None, [EvEvaluate 3%nat]).
Proof.
  split.
  - apply (proj1 (proj2 (proj2 (proj2
             (testInteraction_catches Demo.browser 4%nat Demo.clickSpec Demo.before
                Demo.start))))
           (Demo.mkWorld 1001 false None) Demo.timeout (Demo.mkWorld 1001 false None)
           [EvClick 4%nat]); reflexivity.
  - apply (proj1 (proj2 (proj2
             (testInteraction_catches Demo.browser 3%nat Demo.hoverSpec Demo.before
                Demo.start)))
           Demo.detached (Demo.mkWorld 1001 false None)); reflexivity.
Defined.

(** ** The analyzer *)

Lemma first_non_empty_first (candidates : list (option string)) k s :
  candidates !! k = Some (Some s) -> s <> "" ->
  (forall j c, (j < k)%nat -> candidates !! j = Some c -> truthy c = false) ->
  first_non_empty candidates = Some s.
Proof.
  unfold first_non_empty. revert k.
  induction candidates as [|c l IH]; intros k Hk Hs Hbefore; [by rewrite lookup_nil in Hk|].
  destruct k as [|k]; simpl in *.
  - injection Hk as ->. simpl. by apply String.eqb_neq in Hs as ->.
  - rewrite (Hbefore 0%nat c) by (done || lia).
    apply (IH k); [done..|]. intros j c' Hj Hc. apply (Hbefore (S j)); [lia|done].
Qed.

Lemma first_non_empty_none (candidates : list (option string)) :
  first_non_empty candidates = None <-> forall c, c ∈ candidates -> truthy c = false.
Proof.
  unfold first_non_empty. induction candidates as [|c l IH]; simpl.
  - split; [|done]. by intros _ c H%elem_of_nil.
  - destruct (truthy c) eqn:Hc; simpl.
    + split.
      * intros ->. discriminate.
      * intros H. specialize (H c (list_elem_of_here _ _)). congruence.
    + rewrite IH. split.
      * intros H c' [->|H']%elem_of_cons; auto.
      * intros H c' H'. apply H. by apply list_elem_of_further.
Qed.

(** C7. The accessible name is the first value that is neither absent nor
    empty among, in this order: the value of [aria-label], the value of
    [aria-labelledby] (the attribute itself, not the text of the element it
    refers to), the value of [alt], the value of [title] and the trimmed
    rendered text; it is null when all five are absent or empty. The name
    the analyzer returns is resolved this way. *)
Theorem accessibleName_resolution (B : Browser) (el : Node B) :
  let candidates w :=
    [getAttribute B w el "aria-label"; getAttribute B w el "aria-labelledby";
     getAttribute B w el "alt"; getAttribute B w el "title";
     trim <$> innerText B w el] in
  (forall w, accessibleName_cb B w el = first_non_empty (candidates w))
  /\ (forall w k s,
        candidates w !! k = Some (Some s) -> s <> "" ->
        (forall j c, (j < k)%nat -> candidates w !! j = Some c -> c = None \/ c = Some "") ->
        accessibleName_cb B w el = Some s)
  /\ (forall w,
        (forall c, c ∈ candidates w -> c = None \/ c = Some "") <->
        accessibleName_cb B w el = None)
  /\ (forall w a w' t,
        analyzeAccessibility B el w = (Ok a, w', t) ->
        exists wn, Accessibility.accessibleName a = first_non_empty (candidates wn)).
Proof.
  intros candidates.
  assert (forall c, truthy c = false <-> c = None \/ c = Some "") as Hfalsy.
  { intros [s|]; simpl; [|by split; auto].
    rewrite negb_false_iff, String.eqb_eq. split; [intros ->; by right|].
    by intros [|[= ->]]. }
  assert (forall w, accessibleName_cb B w el = first_non_empty (candidates w)) as Heq.
  { intros w. unfold accessibleName_cb, first_non_empty, candidates, js_or. simpl.
    by repeat case_match. }
  split; [exact Heq|]. split; [|split].
  - intros w k s Hk Hs Hbefore. rewrite Heq.
    apply (first_non_empty_first _ k); [done..|].
    intros j c Hj Hc. apply Hfalsy. by apply (Hbefore j).
  - intros w. rewrite Heq, first_non_empty_none.
    split; intros H c Hc; apply Hfalsy; by apply H.
  - intros w a w' t.
    unfold analyzeAccessibility.
    intros (a1 & w1 & t1 & ? & _ & H & ->)%bind_ok_inv.
    apply bind_ok_inv in H as (a2 & w2 & t2 & ? & _ & H & ->).
    apply bind_ok_inv in H as (a3 & w3 & t3 & ? & _ & H & ->).
    apply bind_ok_inv in H as (a4 & w4 & t4 & ? & _ & H & ->).
    apply bind_ok_inv in H as (a5 & w5 & t5 & ? & (_ & -> & _)%evaluate_ok_inv & H & ->).
    apply bind_ok_inv in H as (a6 & w6 & t6 & ? & _ & H & ->).
    injection H as <- _ _. simpl. exists w5. apply Heq.
Qed.

Lemma accessibleName_resolution_witness :
  accessibleName_cb Demo.browser Demo.start 1%nat = Some "trip-label"
  /\ accessibleName_cb Demo.browser Demo.start 0%nat = None.
Proof.
  split.
  - apply (proj1 (proj2 (accessibleName_resolution Demo.browser 1%nat)) Demo.start 1%nat);
      [reflexivity|discriminate|].
    intros [|j] c Hj Hc; [|lia]. vm_compute in Hc. injection Hc as <-. by left.
  - apply (proj1 (proj2 (proj2 (accessibleName_resolution Demo.browser 0%nat))) Demo.start).
    intros c Hc. vm_compute in Hc.
    repeat (apply elem_of_cons in Hc as [->|Hc]; [auto|]).
    by apply elem_of_nil in Hc.
Defined.

(** ** The orchestrator *)

Section Orchestrator.
Context (B : Browser).

Lemma finish_run ts found details childFound childDetails interactionResult domChanges
    (w : World B) :
  finish B ts found details childFound childDetails interactionResult domChanges w =
  (Ok (ValidationResult.mk found details childFound childDetails interactionResult
         domChanges (fst (Date_now B w) - ts)),
   snd (Date_now B w), []).
Proof. unfold finish, bind, ret. rewrite now_run. reflexivity. Qed.

Lemma when_log_run description line (w : World B) :
  when B (truthy description) (console_log B line) w = (Ok tt, w, logged description line).
Proof. unfold when, logged. by destruct (truthy description). Qed.

Lemma targets_logged description line : targets (logged description line (N:=Node B)) = [].
Proof. unfold logged. by destruct (truthy description). Qed.

Lemma analyzeAccessibility_trace el (w : World B) a w' t :
  analyzeAccessibility B el w = (Ok a, w', t) ->
  t = [EvEvaluate el; EvIsVisible el; EvEvaluate el; EvEvaluate el; EvEvaluate el;
       EvEvaluate el].
Proof.
  unfold analyzeAccessibility.
  intros (a1 & w1 & t1 & ? & (_ & _ & ->)%evaluate_ok_inv & H & ->)%bind_ok_inv.
  apply bind_ok_inv in H as (a2 & w2 & t2 & ? & [_ ->]%call_ok_inv & H & ->).
  apply bind_ok_inv in H as (a3 & w3 & t3 & ? & (_ & _ & ->)%evaluate_ok_inv & H & ->).
  apply bind_ok_inv in H as (a4 & w4 & t4 & ? & (_ & _ & ->)%evaluate_ok_inv & H & ->).
  apply bind_ok_inv in H as (a5 & w5 & t5 & ? & (_ & _ & ->)%evaluate_ok_inv & H & ->).
  apply bind_ok_inv in H as (a6 & w6 & t6 & ? & (_ & _ & ->)%evaluate_ok_inv & H & ->).
  by injection H as _ _ <-.
Qed.

Lemma truthy_Some (s : string) : s <> "" -> truthy (Some s) = true.
Proof. intros H. simpl. by apply String.eqb_neq in H as ->. Qed.

(** *** The three ways through a found container *)

Section Found.
Context (selector : string) (description : option string)
  (interactionTest : InteractionSpec.t).
Context (w0 w1 w2 w3 : World B) (container : Node B) (details : Accessibility.t)
  (t2 : list (Event (Node B))).
Hypothesis Hcontainer :
  page_query B selector (snd (Date_now B w0)) = (Ok (Some container), w1).
Hypothesis Hdetails : analyzeAccessibility B container w1 = (Ok details, w2, t2).
Hypothesis Hcapture : page_evaluate B container w2 = (Ok tt, w3).

Lemma validateElement_child_run childSelector child w4 childDetails w5 t5 r dc w6 t6 :
  childSelector <> "" ->
  elem_query B container childSelector w3 = (Ok (Some child), w4) ->
  analyzeAccessibility B child w4 = (Ok childDetails, w5, t5) ->
  testInteractionWithDomAnalysis B child interactionTest
    (captureNearbyElements_cb B w3 container) w5
  = (Ok (r, dc), w6, t6) ->
  validateElement B selector description (Some childSelector) (Some interactionTest) w0 =
  (Ok (ValidationResult.mk true (Some details) true (Some childDetails) (Some r) dc
         (fst (Date_now B w6) - fst (Date_now B w0))),
   snd (Date_now B w6),
   EvQuery selector :: t2
   ++ logged description ("✅ " +:+ default "" description +:+ " container found")
   ++ [EvPageEvaluate container; EvQueryIn container childSelector] ++ t5
   ++ logged description ("✅ Child element found within " +:+ default "" description) ++ t6).
Proof.
  intros Hcs Hchild HchildDetails Hrun. unfold validateElement.
  eapply bind_ok; [apply now_run|cbn [fst snd]|].
  eapply bind_ok; [rewrite call_run, Hcontainer; reflexivity|cbn [fst snd]|].
  eapply bind_ok; [exact Hdetails|cbn [fst snd]|].
  eapply bind_ok; [apply when_log_run|cbn [fst snd]|].
  eapply bind_ok;
    [unfold captureNearbyElements, page_eval; rewrite Hcapture; reflexivity
    |cbn [fst snd]|].
  rewrite (truthy_Some _ Hcs). cbn [default from_option id].
  eapply bind_ok; [rewrite call_run, Hchild; reflexivity|cbn [fst snd]|].
  eapply bind_ok; [exact HchildDetails|cbn [fst snd]|].
  eapply bind_ok; [apply when_log_run|cbn [fst snd]|].
  eapply bind_ok; [exact Hrun|apply finish_run|].
  all: first [reflexivity | simpl; by rewrite ?app_nil_r, <- ?app_assoc].
Qed.

Lemma validateElement_direct_run childSelector r dc w4 t4 :
  truthy childSelector = false ->
  testInteractionWithDomAnalysis B container interactionTest
    (captureNearbyElements_cb B w3 container) w3
  = (Ok (r, dc), w4, t4) ->
  validateElement B selector description childSelector (Some interactionTest) w0 =
  (Ok (ValidationResult.mk true (Some details) false None (Some r) dc
         (fst (Date_now B w4) - fst (Date_now B w0))),
   snd (Date_now B w4),
   EvQuery selector :: t2
   ++ logged description ("✅ " +:+ default "" description +:+ " container found")
   ++ EvPageEvaluate container :: t4).
Proof.
  intros Hcs Hrun. unfold validateElement.
  eapply bind_ok; [apply now_run|cbn [fst snd]|].
  eapply bind_ok; [rewrite call_run, Hcontainer; reflexivity|cbn [fst snd]|].
  eapply bind_ok; [exact Hdetails|cbn [fst snd]|].
  eapply bind_ok; [apply when_log_run|cbn [fst snd]|].
  eapply bind_ok;
    [unfold captureNearbyElements, page_eval; rewrite Hcapture; reflexivity
    |cbn [fst snd]|].
  rewrite Hcs.
  eapply bind_ok; [exact Hrun|apply finish_run|].
  all: first [reflexivity | simpl; by rewrite ?app_nil_r, <- ?app_assoc].
Qed.

Lemma validateElement_child_missing_run childSelector interaction w4 :
  childSelector <> "" ->
  elem_query B container childSelector w3 = (Ok None, w4) ->
  validateElement B selector description (Some childSelector) interaction w0 =
  (Ok (ValidationResult.mk true (Some details) false None None None
         (fst (Date_now B w4) - fst (Date_now B w0))),
   snd (Date_now B w4),
   EvQuery selector :: t2
   ++ logged description ("✅ " +:+ default "" description +:+ " container found")
   ++ [EvPageEvaluate container; EvQueryIn container childSelector]
   ++ logged description ("❌ Child element NOT found within " +:+ default "" description)).
Proof.
  intros Hcs Hchild. unfold validateElement.
  eapply bind_ok; [apply now_run|cbn [fst snd]|].
  eapply bind_ok; [rewrite call_run, Hcontainer; reflexivity|cbn [fst snd]|].
  eapply bind_ok; [exact Hdetails|cbn [fst snd]|].
  eapply bind_ok; [apply when_log_run|cbn [fst snd]|].
  eapply bind_ok;
    [unfold captureNearbyElements, page_eval; rewrite Hcapture; reflexivity
    |cbn [fst snd]|].
  rewrite (truthy_Some _ Hcs). cbn [default from_option id].
  eapply bind_ok; [rewrite call_run, Hchild; reflexivity|cbn [fst snd]|].
  eapply bind_ok; [apply when_log_run|apply finish_run|].
  all: first [reflexivity | simpl; by rewrite ?app_nil_r, <- ?app_assoc].
Qed.

End Found.

End Orchestrator.

(** C2. When the container selector matches nothing, [validateElement]
    returns, without throwing, the result with [found] false, null
    [details], [childFound] false, null [childDetails], null
    [interactionResult] and null [domChanges]; it has made no call but the
    query and, given a description, the log line. *)
Theorem validateElement_not_found (B : Browser) selector description childSelector
    interactionTest (w w1 : World B) :
  page_query B selector (snd (Date_now B w)) = (Ok None, w1) ->
  validateElement B selector description childSelector interactionTest w =
  (Ok (ValidationResult.mk false None false None None None
         (fst (Date_now B w1) - fst (Date_now B w))),
   snd (Date_now B w1),
   EvQuery selector
   :: logged description ("❌ " +:+ default "" description +:+ " container NOT found")).
Proof.
  intros H. unfold validateElement.
  eapply bind_ok; [apply now_run|cbn [fst snd]|].
  eapply bind_ok; [rewrite call_run, H; reflexivity|cbn [fst snd]|].
  eapply bind_ok; [apply when_log_run|apply finish_run|].
  all: first [reflexivity | simpl; by rewrite ?app_nil_r].
Qed.

Lemma validateElement_not_found_witness :
  validateElement Demo.browser "#missing" (Some "Promo code") (Some "input")
    (Some Demo.clickSpec) Demo.start
  = (Ok (ValidationResult.mk false None false None None None 1),
     Demo.mkWorld 1002 false None,
     [EvQuery "#missing"; EvLog "❌ Promo code container NOT found"]).
Proof.
  apply (validateElement_not_found Demo.browser "#missing" (Some "Promo code")
           (Some "input") (Some Demo.clickSpec) Demo.start (Demo.mkWorld 1001 false None)).
  reflexivity.
Defined.

(** The empty string is no child selector for the code: the interaction
    goes to the container. *)
Example empty_child_selector :
  targets (snd (validateElement Demo.browser "#widget" None (Some "")
                  (Some Demo.clickSpec) Demo.start))
  = [0%nat].
Proof. reflexivity. Qed.

(** C9. With a child selector and an interaction spec supplied and the
    child found, the snapshot taken as the state before the interaction is
    the one captured around the container, before the child is looked up;
    when the interaction succeeds, the report returned is the diff of that
    snapshot against a snapshot captured around the child. The two
    snapshots compared are centred on different elements. *)
Theorem validateElement_child_snapshots (B : Browser) selector description childSelector
    interactionTest (w0 w1 w2 w3 w4 w5 : World B) (container child : Node B)
    details t2 childDetails t5 :
  childSelector <> "" ->
  page_query B selector (snd (Date_now B w0)) = (Ok (Some container), w1) ->
  analyzeAccessibility B container w1 = (Ok details, w2, t2) ->
  page_evaluate B container w2 = (Ok tt, w3) ->
  elem_query B container childSelector w3 = (Ok (Some child), w4) ->
  analyzeAccessibility B child w4 = (Ok childDetails, w5, t5) ->
  exists v w' t,
    validateElement B selector description (Some childSelector) (Some interactionTest) w0
    = (Ok v, w', t)
    /\ (forall r,
          ValidationResult.interactionResult v = Some r ->
          InteractionResult.success r = true ->
          exists wq wf,
            page_evaluate B child wq = (Ok tt, wf)
            /\ ValidationResult.domChanges v
               = Some (analyzeDomChanges (captureNearbyElements_cb B w3 container)
                         (captureNearbyElements_cb B wf child))
            /\ captures t = [container; child]).
Proof.
  intros Hcs Hcontainer Hdetails Hcapture Hchild HchildDetails.
  destruct (testInteraction_total B child interactionTest
              (captureNearbyElements_cb B w3 container) w5)
    as (r & dc & w6 & t6 & Hrun & _).
  do 3 eexists. split; [by eapply validateElement_child_run|].
  simpl. intros ? [= <-] Hok.
  destruct (testInteraction_success_inv B _ _ _ _ _ _ _ _ Hrun Hok)
    as (sc & wq & wf & Hq & -> & _ & _ & Hcap & _).
  exists wq, wf. split; [done|]. split; [done|].
  rewrite (analyzeAccessibility_trace B _ _ _ _ _ Hdetails).
  rewrite (analyzeAccessibility_trace B _ _ _ _ _ HchildDetails).
  unfold captures in *. simpl. rewrite !omap_app. simpl. rewrite !omap_app, Hcap.
  unfold logged. by repeat case_match.
Qed.

Lemma validateElement_child_snapshots_witness :
  exists v w' t wf,
    validateElement Demo.browser "#widget" None (Some "button") (Some Demo.clickSpec)
      Demo.start = (Ok v, w', t)
    /\ ValidationResult.domChanges v
       = Some (analyzeDomChanges
                 (captureNearbyElements_cb Demo.browser (Demo.mkWorld 1001 false None) 0%nat)
                 (captureNearbyElements_cb Demo.browser wf 1%nat))
    /\ captures t = [0%nat; 1%nat].
Proof.
  destruct (validateElement_child_snapshots Demo.browser "#widget" None "button"
              Demo.clickSpec Demo.start _ _ _ _ _ 0%nat 1%nat _ _ _ _
              ltac:(discriminate) eq_refl eq_refl eq_refl eq_refl eq_refl)
    as (v & w' & t & Hrun & Hsnap).
  assert (exists r, ValidationResult.interactionResult v = Some r
                    /\ InteractionResult.success r = true) as (r & Hr & Hok).
  { vm_compute in Hrun. injection Hrun as <- _ _. eexists. split; reflexivity. }
  destruct (Hsnap r Hr Hok) as (wq & wf & _ & Hd & Hc).
  by exists v, w', t, wf.
Defined.

(** * Further properties *)

(** ** The scorer *)

(** X1. The score tells a failure from a success: it is 0 exactly on a
    failure and at least 50 exactly on a success. It is a multiple of 5,
    it reaches 100 only when the focus changed, and a success that changed
    nothing scores exactly 50. *)
Theorem accessibilityScore_levels (sc : option StateChange.t) (success : bool)
    (d : DomChanges.t) (n : Z) :
  calculateAccessibilityScore sc success (Some d) = Ok n ->
  (success = false <-> n = 0)
  /\ (success = true <-> 50 <= n)
  /\ (exists k, n = 5 * k)
  /\ (n = 100 -> flag sc StateChange.focusChanged = true)
  /\ (success = true ->
      flag sc StateChange.focusChanged = false ->
      flag sc StateChange.ariaExpandedChanged = false ->
      flag sc StateChange.ariaPressedChanged = false ->
      flag sc StateChange.ariaSelectedChanged = false ->
      DomChanges.interactionType d = none ->
      n = 50).
Proof.
  unfold calculateAccessibilityScore. destruct success; simpl.
  - intros [= <-].
    destruct (flag sc StateChange.focusChanged),
      (flag sc StateChange.ariaExpandedChanged),
      (flag sc StateChange.ariaPressedChanged),
      (flag sc StateChange.ariaSelectedChanged),
      (InteractionType_eqb (DomChanges.interactionType d) none) eqn:Ht,
      (0 <? Z.of_nat (length (DomChanges.expandedElements d)));
      simpl;
      (split; [split; [discriminate|intros; exfalso; lia]|]);
      (split; [split; [intros _; lia|reflexivity]|]);
      (split; [match goal with |- exists k, ?m = 5 * k => by exists (m / 5) end|]);
      (split; [intros; first [reflexivity|exfalso; lia]|]);
      intros _ ? ? ? ? Hnone; try discriminate; try reflexivity;
      rewrite Hnone in Ht; discriminate.
  - intros [= <-]. split; [done|]. split; [split; [discriminate|lia]|].
    split; [by exists 0|]. split; [lia|discriminate].
Qed.

Lemma accessibilityScore_levels_witness :
  calculateAccessibilityScore (Some (StateChange.mk true true false false)) true
    (Some (analyzeDomChanges Demo.before Demo.after)) = Ok 95
  /\ (exists k, 95 = 5 * k).
Proof.
  split; [reflexivity|].
  apply (accessibilityScore_levels (Some (StateChange.mk true true false false)) true
           (analyzeDomChanges Demo.before Demo.after) 95 eq_refl).
Defined.

(** ** The diff analyzer *)

Lemma append_nonempty (a : ascii) (s t : string) : String a s +:+ t <> "".
Proof. by rewrite append_cons. Qed.

(** X2. The type of a report is ['none'] exactly when its three lists are
    empty, and its description is empty exactly when its type is
    ['none']. *)
Theorem analyzeDomChanges_none (i f : DomState.t) :
  let r := analyzeDomChanges i f in
  (DomChanges.interactionType r = none <->
   DomChanges.newElements r = [] /\ DomChanges.changedVisibility r = []
   /\ DomChanges.expandedElements r = [])
  /\ (DomChanges.description r = "" <-> DomChanges.interactionType r = none).
Proof.
  intros r. subst r. unfold analyzeDomChanges. fold (collected i f).
  destruct (collected_type i f) as [Ht Hd].
  destruct (DomChanges.newElements (collected i f)) as [|e rest] eqn:Hn.
  - destruct (DomChanges.changedVisibility (collected i f)) as [|v vs] eqn:Hv.
    + destruct (DomChanges.expandedElements (collected i f)) as [|x xs] eqn:Hx.
      * by rewrite Hn, Hv, Hx, Ht, Hd.
      * simpl. rewrite Hx. split; split; try done. by intros (_ & _ & ?).
    + simpl. rewrite Hv. split; split; try done;
        first [by intros (_ & ? & _)|intros H; by apply append_nonempty in H].
  - repeat case_match; simpl; rewrite Hn; (split; split; try done);
      first [by intros (? & _)|intros H; by apply append_nonempty in H].
Qed.

Lemma filter_sublist {A} (p : A -> bool) (l : list A) : List.filter p l `sublist_of` l.
Proof.
  induction l as [|x l IH]; simpl; [constructor|].
  destruct (p x); by constructor.
Qed.

Lemma wasVisible_spec (l : list Nearby.t) (e : Nearby.t) :
  wasVisible l e = true <->
  exists o, o ∈ l
    /\ Nearby.className o = Nearby.className e
    /\ Nearby.tagName o = Nearby.tagName e
    /\ Z.abs (Position.top (Nearby.position o) - Position.top (Nearby.position e)) < 50.
Proof.
  unfold wasVisible. rewrite existsb_exists. split.
  - intros (o & Ho & H). apply andb_true_iff in H as [[Hc Ht]%andb_true_iff Hd].
    exists o. rewrite list_elem_of_In. repeat split; [done|..].
    + by apply String.eqb_eq.
    + by apply String.eqb_eq.
    + by apply Z.ltb_lt.
  - intros (o & Ho & Hc & Ht & Hd). exists o. rewrite <- list_elem_of_In.
    split; [done|]. rewrite !andb_true_iff. repeat split.
    + by apply String.eqb_eq.
    + by apply String.eqb_eq.
    + by apply Z.ltb_lt.
Qed.

(** X3. An element is reported as new exactly when it is a visible nearby
    element of the final snapshot and no visible nearby element of the
    initial snapshot has its class and its tag at a vertical distance under
    50; the ids, the horizontal positions and the sizes play no part. The
    new elements keep the order they have in the final snapshot. *)
Theorem newElements_spec (i f : DomState.t) :
  let r := analyzeDomChanges i f in
  (forall e,
     e ∈ DomChanges.newElements r <->
     e ∈ DomState.nearbyElements f /\ Nearby.isVisible e = true
     /\ forall o, o ∈ DomState.nearbyElements i -> Nearby.isVisible o = true ->
          ~ (Nearby.className o = Nearby.className e
             /\ Nearby.tagName o = Nearby.tagName e
             /\ Z.abs (Position.top (Nearby.position o)
                       - Position.top (Nearby.position e)) < 50))
  /\ DomChanges.newElements r `sublist_of` DomState.nearbyElements f.
Proof.
  intros r. subst r. destruct (analyzeDomChanges_lists i f) as (-> & _ & _).
  rewrite collected_newElements. split.
  - intros e. rewrite !list_elem_of_In, !filter_In, negb_true_iff, <- list_elem_of_In.
    rewrite <- not_true_iff_false, wasVisible_spec. split.
    + intros [[He Hv] Hnone]. repeat split; [done..|].
      intros o Ho Hov H. apply Hnone. exists o. split; [|done].
      by apply list_elem_of_In, filter_In; split; [apply list_elem_of_In|].
    + intros (He & Hv & Hnone). split; [done|].
      intros (o & Ho & H). apply list_elem_of_In, filter_In in Ho as [Ho Hov].
      apply (Hnone o); [by apply list_elem_of_In|done..].
  - etrans; apply filter_sublist.
Qed.

Lemma forEach_sibling_lengths i f : forall k c,
  (length (DomChanges.changedVisibility (forEach_sibling i k f c))
   <= length (DomChanges.changedVisibility c) + Nat.min (length i - k) (length f))%nat
  /\ (length (DomChanges.expandedElements (forEach_sibling i k f c))
      <= length (DomChanges.expandedElements c) + Nat.min (length i - k) (length f))%nat.
Proof.
  induction f as [|b f IH]; intros k c; [simpl; lia|].
  rewrite forEach_sibling_cons.
  destruct (IH (S k)
              (DomChanges.mk (DomChanges.newElements c)
                 (DomChanges.changedVisibility c
                  ++ option_list (a ← i !! k; visibility_change a b))
                 (DomChanges.expandedElements c
                  ++ option_list (a ← i !! k; expansion_change a b))
                 (DomChanges.interactionType c) (DomChanges.description c)))
    as [Hv He].
  simpl in Hv, He. rewrite length_app in Hv, He.
  destruct (i !! k) as [a|] eqn:Hik; simpl in *.
  - apply lookup_lt_Some in Hik.
    assert (forall {A} (o : option A), (length (option_list o) <= 1)%nat) as Hone
      by (by intros A []; simpl; lia).
    pose proof (Hone _ (visibility_change a b)).
    pose proof (Hone _ (expansion_change a b)).
    split; lia.
  - split; lia.
Qed.

(** X4. The diff reports at most one visibility change and at most one
    aria-expanded change per index the two sibling lists share, and at most
    one new element per nearby element of the final snapshot. With no
    sibling on either side, a report can only be about new elements. *)
Theorem analyzeDomChanges_counts (i f : DomState.t) :
  let r := analyzeDomChanges i f in
  let shared := Nat.min (length (DomState.siblings i)) (length (DomState.siblings f)) in
  (length (DomChanges.changedVisibility r) <= shared)%nat
  /\ (length (DomChanges.expandedElements r) <= shared)%nat
  /\ (length (DomChanges.newElements r) <= length (DomState.nearbyElements f))%nat
  /\ (shared = 0%nat ->
      DomChanges.interactionType r <> visibility_toggle
      /\ DomChanges.interactionType r <> aria_expansion).
Proof.
  intros r shared. subst r shared.
  pose proof (interactionType_cascade i f) as Hcascade.
  destruct (analyzeDomChanges_lists i f) as (Hn & Hv & He).
  rewrite Hn, Hv, He in *. clear Hn Hv He.
  destruct (forEach_sibling_lengths (DomState.siblings i) (DomState.siblings f) 0%nat
              (DomChanges.mk
                 (List.filter
                    (fun finalEl =>
                       negb (wasVisible
                               (List.filter Nearby.isVisible (DomState.nearbyElements i))
                               finalEl))
                    (List.filter Nearby.isVisible (DomState.nearbyElements f)))
                 [] [] none "")) as [Hv He].
  fold (collected i f) in Hv, He. simpl in Hv, He. rewrite Nat.sub_0_r in Hv, He.
  split; [done|]. split; [done|]. split.
  - rewrite collected_newElements.
    etrans; [apply sublist_length, filter_sublist|].
    apply sublist_length, filter_sublist.
  - intros H0. rewrite H0 in Hv, He.
    destruct (DomChanges.changedVisibility (collected i f)); [|simpl in Hv; lia].
    destruct (DomChanges.expandedElements (collected i f)); [|simpl in He; lia].
    rewrite Hcascade. by repeat case_match.
Qed.

Lemma analyzeDomChanges_counts_witness :
  DomChanges.interactionType
    (analyzeDomChanges Demo.nothing (Demo.showing Demo.panel)) <> visibility_toggle.
Proof.
  apply (analyzeDomChanges_counts Demo.nothing (Demo.showing Demo.panel)). reflexivity.
Defined.

Lemma forEach_sibling_zip i f : forall k c,
  DomChanges.changedVisibility (forEach_sibling i k f c)
  = DomChanges.changedVisibility c
    ++ omap (fun p => visibility_change p.1 p.2) (zip (drop k i) f)
  /\ DomChanges.expandedElements (forEach_sibling i k f c)
     = DomChanges.expandedElements c
       ++ omap (fun p => expansion_change p.1 p.2) (zip (drop k i) f).
Proof.
  induction f as [|b f IH]; intros k c.
  - simpl. rewrite zip_with_nil_r. simpl. by rewrite !app_nil_r.
  - rewrite forEach_sibling_cons.
    destruct (IH (S k)
                (DomChanges.mk (DomChanges.newElements c)
                   (DomChanges.changedVisibility c
                    ++ option_list (a ← i !! k; visibility_change a b))
                   (DomChanges.expandedElements c
                    ++ option_list (a ← i !! k; expansion_change a b))
                   (DomChanges.interactionType c) (DomChanges.description c)))
      as [-> ->].
    simpl. destruct (i !! k) as [a|] eqn:Hik.
    + rewrite (drop_S _ _ _ Hik). simpl. rewrite <- !app_assoc.
      by destruct (visibility_change a b), (expansion_change a b).
    + apply lookup_ge_None in Hik.
      rewrite !drop_ge by lia. simpl. by rewrite !app_nil_r.
Qed.

Lemma omap_zip_swap_length {A C D} (g : A * A -> option C) (h : A * A -> option D)
    (l1 l2 : list A) :
  (forall a b, is_Some (g (a, b)) <-> is_Some (h (b, a))) ->
  length (omap g (zip l1 l2)) = length (omap h (zip l2 l1)).
Proof.
  intros Hgh. revert l2. induction l1 as [|a l1 IH]; intros [|b l2]; simpl; try done.
  specialize (Hgh a b). specialize (IH l2).
  destruct (g (a, b)) as [x|], (h (b, a)) as [y|]; simpl.
  - f_equal. apply IH.
  - destruct Hgh as [[? ?] _]; [by eexists|done].
  - destruct Hgh as [_ [? ?]]; [by eexists|done].
  - apply IH.
Qed.

(** X5. The sibling changes are, in the order of the siblings, the changes
    of the pairs of siblings at the same index; so the diff of two
    snapshots and the diff taken the other way round report the same
    number of visibility changes and of aria-expanded changes. *)
Theorem analyzeDomChanges_sibling_pairs (i f : DomState.t) :
  DomChanges.changedVisibility (analyzeDomChanges i f)
  = omap (fun p => visibility_change p.1 p.2) (zip (DomState.siblings i) (DomState.siblings f))
  /\ DomChanges.expandedElements (analyzeDomChanges i f)
     = omap (fun p => expansion_change p.1 p.2)
         (zip (DomState.siblings i) (DomState.siblings f))
  /\ length (DomChanges.changedVisibility (analyzeDomChanges i f))
     = length (DomChanges.changedVisibility (analyzeDomChanges f i))
  /\ length (DomChanges.expandedElements (analyzeDomChanges i f))
     = length (DomChanges.expandedElements (analyzeDomChanges f i)).
Proof.
  assert (forall i f,
    DomChanges.changedVisibility (analyzeDomChanges i f)
    = omap (fun p => visibility_change p.1 p.2)
        (zip (DomState.siblings i) (DomState.siblings f))
    /\ DomChanges.expandedElements (analyzeDomChanges i f)
       = omap (fun p => expansion_change p.1 p.2)
           (zip (DomState.siblings i) (DomState.siblings f))) as Hpairs.
  { intros i' f'. destruct (analyzeDomChanges_lists i' f') as (_ & -> & ->).
    unfold collected.
    by destruct (forEach_sibling_zip (DomState.siblings i') (DomState.siblings f') 0%nat
                   (DomChanges.mk
                      (List.filter
                         (fun finalEl =>
                            negb (wasVisible
                                    (List.filter Nearby.isVisible
                                       (DomState.nearbyElements i'))
                                    finalEl))
                         (List.filter Nearby.isVisible (DomState.nearbyElements f')))
                      [] [] none "")) as [-> ->]. }
  destruct (Hpairs i f) as [Hv He]. destruct (Hpairs f i) as [Hv' He'].
  split; [done|]. split; [done|]. rewrite Hv, He, Hv', He'. split.
  - apply omap_zip_swap_length. intros a b. simpl. unfold visibility_change.
    destruct (Sibling.isVisible a), (Sibling.isVisible b); simpl;
      split; intros [? ?]; by eexists.
  - apply omap_zip_swap_length. intros a b. simpl. unfold expansion_change.
    destruct (decide (Sibling.ariaExpanded a = Sibling.ariaExpanded b)) as [Heq|Hne].
    + rewrite Heq, bool_decide_eq_true_2 by done. simpl. split; intros [? ?]; done.
    + rewrite !bool_decide_eq_false_2 by done. simpl. split; intros _; by eexists.
Qed.

(** ** The capture of the neighbourhood *)

Lemma captured_nearby (B : Browser) (w : World B) (el : Node B) (e : Nearby.t) :
  e ∈ DomState.nearbyElements (captureNearbyElements_cb B w el) ->
  Z.abs (Position.top (Nearby.position e)
         - DOMRect.bottom (getBoundingClientRect B w el)) < 200
  /\ Z.abs (Position.left (Nearby.position e)
            - DOMRect.left (getBoundingClientRect B w el)) < 200
  /\ 50 < Position.width (Nearby.position e)
  /\ 20 < Position.height (Nearby.position e)
  /\ exists n, n ∈ querySelectorAll B w "div, ul, section"
       /\ n <> el /\ contains B w el n = false /\ contains B w n el = false
       /\ Nearby.tagName e = el_tagName B w n
       /\ Nearby.className e = el_className B w n
       /\ Nearby.isVisible e = offsetParent_not_null B w n.
Proof.
  unfold captureNearbyElements_cb. simpl.
  intros He. apply list_elem_of_fmap in He as (n & -> & Hn).
  apply list_elem_of_In, filter_In in Hn as [Hn Hkeep]. simpl.
  destruct (bool_decide (n = el) || contains B w el n || contains B w n el) eqn:Hex;
    [discriminate|].
  apply orb_false_iff in Hex as [[Hne Hin]%orb_false_iff Hout].
  apply bool_decide_eq_false in Hne.
  apply andb_true_iff in Hkeep as [[[Ht Hl]%andb_true_iff Hw]%andb_true_iff Hh].
  apply Z.ltb_lt in Ht, Hl, Hw, Hh.
  repeat split; [done..|]. exists n. by rewrite list_elem_of_In.
Qed.

(** X6. In a captured snapshot every nearby element lies in the window of
    the target: its top is less than 200 from the target's bottom, its left
    less than 200 from the target's left, it is wider than 50 and higher
    than 20, and it is a different node from the target, neither inside it
    nor around it. The snapshot has one sibling per child of the parent,
    and none, with a null parent tag, when the target has no parent. *)
Theorem captureNearbyElements_window (B : Browser) (w : World B) (el : Node B) :
  let s := captureNearbyElements_cb B w el in
  (forall e, e ∈ DomState.nearbyElements s ->
     Z.abs (Position.top (Nearby.position e)
            - ElementPosition.bottom (DomState.elementPosition s)) < 200
     /\ Z.abs (Position.left (Nearby.position e)
               - ElementPosition.left (DomState.elementPosition s)) < 200
     /\ 50 < Position.width (Nearby.position e)
     /\ 20 < Position.height (Nearby.position e)
     /\ exists n, n ∈ querySelectorAll B w "div, ul, section"
          /\ n <> el /\ contains B w el n = false /\ contains B w n el = false
          /\ Nearby.tagName e = el_tagName B w n
          /\ Nearby.className e = el_className B w n
          /\ Nearby.isVisible e = offsetParent_not_null B w n)
  /\ length (DomState.siblings s) = length (from_option (children B w) [] (parentElement B w el))
  /\ (parentElement B w el = None ->
      DomState.siblings s = [] /\ DomState.parentTagName s = None).
Proof.
  intros s. subst s. split; [|split].
  - intros e He. by apply captured_nearby in He.
  - unfold captureNearbyElements_cb. simpl. by rewrite length_map.
  - unfold captureNearbyElements_cb. simpl. by intros ->.
Qed.

Lemma captureNearbyElements_window_witness :
  DomState.siblings (captureNearbyElements_cb Demo.browser Demo.start 0%nat) = []
  /\ DomState.parentTagName (captureNearbyElements_cb Demo.browser Demo.start 0%nat) = None.
Proof.
  apply (captureNearbyElements_window Demo.browser Demo.start 0%nat). reflexivity.
Defined.

(** ** The executor *)

Section Executor.
Context (B : Browser).

(** The state change of two element states, field by field. *)
Lemma interaction_body_inv el it s0 (w : World B) d sc w' t :
  interaction_body B el it s0 w = (Ok (d, sc), w', t) ->
  exists w1 w2 t2 w3 w4,
    elem_evaluate B el w = (Ok tt, w1)
    /\ dispatch B el it w1 = (Ok tt, w2, t2)
    /\ page_waitForTimeout B 300 w2 = (Ok tt, w3)
    /\ page_evaluate B el w3 = (Ok tt, w4)
    /\ elem_evaluate B el w4 = (Ok tt, w')
    /\ d = analyzeDomChanges s0 (captureNearbyElements_cb B w4 el)
    /\ sc = StateChange.mk
              (negb (Bool.eqb (ElementState.focused (elementState_cb B w1 el))
                       (ElementState.focused (elementState_cb B w' el))))
              (negb (bool_decide (getAttribute B w1 el "aria-expanded"
                                  = getAttribute B w' el "aria-expanded")))
              (negb (bool_decide (getAttribute B w1 el "aria-pressed"
                                  = getAttribute B w' el "aria-pressed")))
              (negb (bool_decide (getAttribute B w1 el "aria-selected"
                                  = getAttribute B w' el "aria-selected")))
    /\ t = EvEvaluate el :: t2 ++ [EvWait 300; EvPageEvaluate el; EvEvaluate el].
Proof.
  unfold interaction_body.
  intros (a1 & w1 & t1 & ? & (H1 & -> & ->)%evaluate_ok_inv & H & ->)%bind_ok_inv.
  apply bind_ok_inv in H as ([] & w2 & t2 & ? & H2 & H & ->).
  apply bind_ok_inv in H as ([] & w3 & t3 & ? & [H3 ->]%call_ok_inv & H & ->).
  apply bind_ok_inv in H as (a4 & w4 & t4 & ? & H4 & H & ->).
  apply page_eval_ok_inv in H4 as (H4 & -> & ->).
  apply bind_ok_inv in H as (a5 & w5 & t5 & ? & (H5 & -> & ->)%evaluate_ok_inv & H & ->).
  injection H as <- <- <- <-.
  exists w1, w2, t2, w3, w4. by repeat split.
Qed.

Lemma dispatch_trace el it (w : World B) :
  snd (dispatch B el it w) `prefix_of` actions_of el it
  /\ (forall u w', fst (dispatch B el it w) = (Ok u, w') ->
      snd (dispatch B el it w) = actions_of el it).
Proof.
  unfold dispatch, actions_of. destruct (InteractionSpec.type it).
  1-3: rewrite call_run; simpl; split; [done|by intros].
  unfold bind. rewrite call_run.
  destruct (elem_focus B el w) as [[[]|e] w1]; simpl.
  - destruct (InteractionSpec.key it) as [key|]; simpl.
    + destruct (String.eqb key ""); simpl.
      * split; [done|by intros].
      * rewrite call_run. simpl. split; [done|by intros].
    + split; [done|by intros].
  - split; [|discriminate]. by eexists.
Qed.

(** What the executor returns, by the outcome of its [try] block. *)
Lemma testInteraction_inv el it s0 (w : World B) r dc w' t :
  testInteractionWithDomAnalysis B el it s0 w = (Ok (r, dc), w', t) ->
  (exists d sc w2 n,
     interaction_body B el it s0 (snd (Date_now B w)) = (Ok (d, sc), w2, t)
     /\ calculateAccessibilityScore (Some sc) true (Some d) = Ok n
     /\ r = InteractionResult.mk (InteractionSpec.type it) true None
              (fst (Date_now B w2) - fst (Date_now B w)) (Some sc) n
     /\ dc = Some d /\ w' = snd (Date_now B w2))
  \/ (exists e w2,
        interaction_body B el it s0 (snd (Date_now B w)) = (Throw e, w2, t)
        /\ r = InteractionResult.mk (InteractionSpec.type it) false (Some e)
                 (fst (Date_now B w2) - fst (Date_now B w)) None 0
        /\ dc = None /\ w' = snd (Date_now B w2)).
Proof.
  destruct (interaction_body B el it s0 (snd (Date_now B w)))
    as [[[[d sc]|e] w2] t2] eqn:Hbody.
  - destruct (testInteraction_completed B el it s0 w d sc w2 t2 Hbody) as (n & Hn & ->).
    intros [= <- <- <- <-]. left. by exists d, sc, w2, n.
  - rewrite (testInteraction_failed B el it s0 w e w2 t2 Hbody).
    intros [= <- <- <- <-]. right. by exists e, w2.
Qed.

End Executor.

(** X7. The outcome of the executor is coherent: it carries the type of
    the interaction asked for; it has no error, a state change and a diff
    report exactly when it is a success, and an error, no state change and
    no report exactly when it is a failure; its time is the difference of
    the two clock readings around the [try] block. *)
Theorem testInteraction_outcome (B : Browser) el it s0 (w : World B) r dc w' t :
  testInteractionWithDomAnalysis B el it s0 w = (Ok (r, dc), w', t) ->
  InteractionResult.type r = InteractionSpec.type it
  /\ (InteractionResult.success r = true <-> InteractionResult.error r = None)
  /\ (InteractionResult.success r = true <-> is_Some (InteractionResult.stateChange r))
  /\ (InteractionResult.success r = true <-> is_Some dc)
  /\ exists w2, w' = snd (Date_now B w2)
       /\ InteractionResult.interactionTime r = fst (Date_now B w2) - fst (Date_now B w).
Proof.
  intros [(d & sc & w2 & n & _ & _ & -> & -> & ->)|(e & w2 & _ & -> & -> & ->)]%testInteraction_inv;
    simpl; (split; [done|]).
  - repeat split; try done; try (by eexists); by exists w2.
  - repeat split; try done; try (by intros [? ?]); by exists w2.
Qed.

Lemma testInteraction_outcome_witness :
  exists r dc w' t,
    testInteractionWithDomAnalysis Demo.browser 1%nat Demo.clickSpec Demo.before Demo.start
    = (Ok (r, dc), w', t)
    /\ InteractionResult.type r = click
    /\ InteractionResult.interactionTime r = 301.
Proof.
  destruct (testInteractionWithDomAnalysis Demo.browser 1%nat Demo.clickSpec Demo.before
              Demo.start) as [[[[r dc]|e] w'] t] eqn:Hrun; [|by vm_compute in Hrun].
  destruct (testInteraction_outcome Demo.browser 1%nat Demo.clickSpec Demo.before
              Demo.start r dc w' t Hrun) as (Htype & _ & _ & _ & _).
  exists r, dc, w', t. split; [reflexivity|]. split; [exact Htype|].
  vm_compute in Hrun. by injection Hrun as <- _ _ _.
Defined.

Lemma bind_prefix (B : Browser) {A C} (m : M B A) (k : A -> M B C) w l1 l2 :
  snd (m w) `prefix_of` l1 ->
  (forall a w1, fst (m w) = (Ok a, w1) ->
                snd (m w) = l1 /\ snd (k a w1) `prefix_of` l2) ->
  snd (bind B m k w) `prefix_of` l1 ++ l2.
Proof.
  unfold bind. destruct (m w) as [[[a|e] w1] t1]; simpl.
  - intros _ H. destruct (H a w1 eq_refl) as [-> Hk].
    destruct (k a w1) as [[r w2] t2]. simpl in *. by apply prefix_app.
  - intros H _. by apply prefix_app_r.
Qed.

Lemma evaluate_events (B : Browser) {A} el (cb : World B -> Node B -> A) w :
  snd (evaluate B el cb w) = [EvEvaluate el].
Proof. unfold evaluate. by destruct (elem_evaluate B el w) as [[[]|e] w1]. Qed.

Lemma page_eval_events (B : Browser) {A} el (cb : World B -> Node B -> A) w :
  snd (page_eval B el cb w) = [EvPageEvaluate el].
Proof. unfold page_eval. by destruct (page_evaluate B el w) as [[[]|e] w1]. Qed.

Lemma interaction_body_trace (B : Browser) el it s0 (w : World B) :
  snd (interaction_body B el it s0 w)
  `prefix_of` EvEvaluate el :: actions_of el it
              ++ [EvWait 300; EvPageEvaluate el; EvEvaluate el].
Proof.
  unfold interaction_body.
  apply (bind_prefix B _ _ _ [EvEvaluate el]); rewrite evaluate_events; [done|].
  intros a1 w1 _. split; [done|].
  destruct (dispatch_trace B el it w1) as [Hpre Hfull].
  apply bind_prefix; [done|]. intros a2 w2 H2. split; [by eapply Hfull|].
  apply (bind_prefix B _ _ _ [EvWait 300]); rewrite call_run; [done|].
  intros a3 w3 _. split; [done|].
  apply (bind_prefix B _ _ _ [EvPageEvaluate el]);
    unfold captureNearbyElements; rewrite page_eval_events; [done|].
  intros a4 w4 _. split; [done|].
  rewrite <- (app_nil_r [EvEvaluate el]).
  apply (bind_prefix B _ _ _ [EvEvaluate el]); rewrite evaluate_events; [done|].
  intros a5 w5 _. split; [done|]. done.
Qed.

(** X8. The executor makes its calls in a fixed order: the read of the
    state, the actions of the interaction, the wait of 300, the capture of
    the neighbourhood, the read of the state. A click, a focus and a hover
    are one action; a keydown focuses the element and then presses the key,
    when the key is a non-empty string. A success has made all these calls;
    a failure has made an initial segment of them. *)
Theorem testInteraction_calls (B : Browser) el it s0 (w : World B) r dc w' t :
  testInteractionWithDomAnalysis B el it s0 w = (Ok (r, dc), w', t) ->
  let calls :=
    EvEvaluate el :: actions_of el it ++ [EvWait 300; EvPageEvaluate el; EvEvaluate el] in
  t `prefix_of` calls
  /\ (InteractionResult.success r = true -> t = calls).
Proof.
  intros Hrun calls. subst calls.
  pose proof (interaction_body_trace B el it s0 (snd (Date_now B w))) as Hpre.
  apply testInteraction_inv in Hrun
    as [(d & sc & w2 & n & Hbody & _ & -> & -> & ->)|(e & w2 & Hbody & -> & -> & ->)];
    rewrite Hbody in Hpre; simpl in *.
  - split; [done|]. intros _.
    apply interaction_body_inv in Hbody
      as (w1 & w3 & t2 & w4 & w5 & _ & Hd & _ & _ & _ & _ & _ & ->).
    destruct (dispatch_trace B el it w1) as [_ Hfull].
    rewrite Hd in Hfull. simpl in Hfull. by rewrite (Hfull tt w3 eq_refl).
  - split; [done|discriminate].
Qed.

Lemma testInteraction_calls_witness :
  exists r dc w',
    testInteractionWithDomAnalysis Demo.browser 1%nat
      (InteractionSpec.mk keydown (Some "Enter") None) Demo.before Demo.start
    = (Ok (r, dc), w',
       [EvEvaluate 1%nat; EvFocus 1%nat; EvPress 1%nat "Enter"; EvWait 300;
        EvPageEvaluate 1%nat; EvEvaluate 1%nat]).
Proof.
  destruct (testInteractionWithDomAnalysis Demo.browser 1%nat
              (InteractionSpec.mk keydown (Some "Enter") None) Demo.before Demo.start)
    as [[[[r dc]|e] w'] t] eqn:Hrun; [|by vm_compute in Hrun].
  assert (InteractionResult.success r = true) as Hok.
  { vm_compute in Hrun. by injection Hrun as <- _ _ _. }
  destruct (testInteraction_calls Demo.browser 1%nat _ Demo.before Demo.start r dc w' t Hrun)
    as [_ Hall].
  rewrite (Hall Hok). by exists r, dc, w'.
Defined.

(** X9. The new elements of a report the executor returns were captured
    around the element it acted on: each is visible, wider than 50 and
    higher than 20, with its top less than 200 from the bottom of the
    element and its left less than 200 from the left of the element, as
    the element stood when the neighbourhood was captured again. *)
Theorem testInteraction_new_elements (B : Browser) el it s0 (w : World B) r d w' t :
  testInteractionWithDomAnalysis B el it s0 w = (Ok (r, Some d), w', t) ->
  exists wf,
    d = analyzeDomChanges s0 (captureNearbyElements_cb B wf el)
    /\ forall e, e ∈ DomChanges.newElements d ->
         Nearby.isVisible e = true
         /\ 50 < Position.width (Nearby.position e)
         /\ 20 < Position.height (Nearby.position e)
         /\ Z.abs (Position.top (Nearby.position e)
                   - DOMRect.bottom (getBoundingClientRect B wf el)) < 200
         /\ Z.abs (Position.left (Nearby.position e)
                   - DOMRect.left (getBoundingClientRect B wf el)) < 200.
Proof.
  intros [(d' & sc & w2 & n & Hbody & _ & _ & [= <-] & _)|(e & w2 & _ & _ & [=] & _)]%testInteraction_inv.
  apply interaction_body_inv in Hbody
    as (w1 & w3 & t2 & w4 & w5 & _ & _ & _ & _ & _ & -> & _ & _).
  exists w5. split; [done|]. intros e [He Hv]%elem_of_newElements.
  apply captured_nearby in He as (Ht & Hl & Hw & Hh & _). by repeat split.
Qed.

Lemma testInteraction_new_elements_witness :
  exists r d w' t,
    testInteractionWithDomAnalysis Demo.browser 1%nat Demo.clickSpec Demo.nothing Demo.start
    = (Ok (r, Some d), w', t)
    /\ Forall (fun e => 50 < Position.width (Nearby.position e)) (DomChanges.newElements d).
Proof.
  destruct (testInteractionWithDomAnalysis Demo.browser 1%nat Demo.clickSpec Demo.nothing
              Demo.start) as [[[[r [d|]]|e] w'] t] eqn:Hrun; [|by vm_compute in Hrun..].
  destruct (testInteraction_new_elements Demo.browser 1%nat Demo.clickSpec Demo.nothing
              Demo.start r d w' t Hrun) as (wf & _ & Hnew).
  exists r, d, w', t. split; [reflexivity|].
  apply Forall_forall. intros e He. by apply Hnew.
Defined.

(** X10. On an element whose [aria-expanded], [aria-pressed] or
    [aria-selected] attribute has the same value, or is absent, in every
    state of the page, a successful interaction reports no change of that
    attribute. *)
Theorem testInteraction_stable_aria (B : Browser) el it s0 (w : World B) r dc w' t sc :
  testInteractionWithDomAnalysis B el it s0 w = (Ok (r, dc), w', t) ->
  InteractionResult.stateChange r = Some sc ->
  ((forall w1 w2, getAttribute B w1 el "aria-expanded" = getAttribute B w2 el "aria-expanded") ->
   StateChange.ariaExpandedChanged sc = false)
  /\ ((forall w1 w2, getAttribute B w1 el "aria-pressed" = getAttribute B w2 el "aria-pressed") ->
      StateChange.ariaPressedChanged sc = false)
  /\ ((forall w1 w2, getAttribute B w1 el "aria-selected" = getAttribute B w2 el "aria-selected") ->
      StateChange.ariaSelectedChanged sc = false).
Proof.
  intros [(d & sc' & w2 & n & Hbody & _ & -> & _ & _)|(e & w2 & _ & -> & _)]%testInteraction_inv;
    [|discriminate].
  simpl. intros [= ->].
  apply interaction_body_inv in Hbody
    as (w1 & w3 & t2 & w4 & w5 & _ & _ & _ & _ & _ & _ & -> & _).
  simpl. repeat split; intros H; by rewrite bool_decide_eq_true_2.
Qed.

Lemma testInteraction_stable_aria_witness :
  exists r dc w' t sc,
    testInteractionWithDomAnalysis Demo.browser 0%nat Demo.clickSpec Demo.nothing Demo.start
    = (Ok (r, dc), w', t)
    /\ InteractionResult.success r = true
    /\ InteractionResult.stateChange r = Some sc
    /\ StateChange.ariaExpandedChanged sc = false.
Proof.
  destruct (testInteractionWithDomAnalysis Demo.browser 0%nat Demo.clickSpec Demo.nothing
              Demo.start) as [[[[r dc]|e] w'] t] eqn:Hrun; [|by vm_compute in Hrun].
  assert (InteractionResult.success r = true
          /\ exists sc, InteractionResult.stateChange r = Some sc) as [Hok [sc Hsc]].
  { vm_compute in Hrun. injection Hrun as <- _ _ _. split; [reflexivity|by eexists]. }
  exists r, dc, w', t, sc. split; [reflexivity|]. split; [exact Hok|]. split; [exact Hsc|].
  apply (testInteraction_stable_aria Demo.browser 0%nat Demo.clickSpec Demo.nothing
           Demo.start r dc w' t sc Hrun Hsc).
  reflexivity.
Defined.

(** ** The orchestrator *)

Section Probe.
Context (B : Browser).

Lemma quiet_targets {A} (m : M B A) w :
  acts_on B (fun _ => False) m -> targets (snd (m w)) = [].
Proof.
  intros H. specialize (H w). destruct (targets (snd (m w))); [done|].
  by apply Forall_cons in H as [[] _].
Qed.

Lemma finish_quiet P ts a b c d e f : acts_on B P (finish B ts a b c d e f).
Proof.
  unfold finish. apply acts_on_bind; [apply acts_on_now|intros ?; apply acts_on_ret].
Qed.

Lemma dispatches_quiet {A} (Q : list (Node B) -> Prop) (m : M B A) :
  Q [] -> acts_on B (fun _ => False) m -> dispatches B Q m.
Proof. intros HQ Hm w. by rewrite quiet_targets. Qed.

Lemma dispatches_after_quiet {A C} Q (m : M B A) (k : A -> M B C) :
  Q [] -> acts_on B (fun _ => False) m -> (forall a, dispatches B Q (k a)) ->
  dispatches B Q (bind B m k).
Proof.
  intros HQ Hm Hk w. pose proof (quiet_targets m w Hm) as Hq. unfold bind.
  destruct (m w) as [[[a|e] w1] t1]; simpl in *; [|by rewrite Hq].
  specialize (Hk a w1). destruct (k a w1) as [[r w2] t2]; simpl in *.
  by rewrite targets_app, Hq.
Qed.

Lemma dispatches_before_quiet {A C} Q (m : M B A) (k : A -> M B C) :
  dispatches B Q m -> (forall a, acts_on B (fun _ => False) (k a)) ->
  dispatches B Q (bind B m k).
Proof.
  intros Hm Hk w. specialize (Hm w). unfold bind.
  destruct (m w) as [[[a|e] w1] t1]; simpl in *; [|done].
  pose proof (quiet_targets (k a) w1 (Hk a)) as Hq.
  destruct (k a w1) as [[r w2] t2]; simpl in *.
  by rewrite targets_app, Hq, app_nil_r.
Qed.

Lemma testInteraction_events el it s0 (w : World B) :
  snd (testInteractionWithDomAnalysis B el it s0 w)
  = snd (interaction_body B el it s0 (snd (Date_now B w))).
Proof.
  destruct (interaction_body B el it s0 (snd (Date_now B w)))
    as [[[[d sc]|e] w2] t2] eqn:Hbody.
  - by destruct (testInteraction_completed B el it s0 w d sc w2 t2 Hbody) as (n & _ & ->).
  - by rewrite (testInteraction_failed B el it s0 w e w2 t2 Hbody).
Qed.

Lemma targets_prefix (t1 t2 : list (Event (Node B))) :
  t1 `prefix_of` t2 -> targets t1 `prefix_of` targets t2.
Proof. intros [k ->]. rewrite targets_app. by eexists. Qed.

Lemma testInteraction_one_target el it s0 :
  dispatches B one_target (testInteractionWithDomAnalysis B el it s0).
Proof.
  intros w. split.
  - rewrite testInteraction_events.
    pose proof (interaction_body_trace B el it s0 (snd (Date_now B w))) as Hpre.
    apply targets_prefix, prefix_length in Hpre.
    etrans; [exact Hpre|].
    unfold targets. simpl. rewrite omap_app. simpl. rewrite app_nil_r.
    unfold actions_of. by repeat case_match; simpl; lia.
  - pose proof (acts_on_testInteraction B el it s0 w) as Hon.
    intros a b Ha Hb.
    rewrite Forall_forall in Hon. by rewrite <- (Hon a Ha), <- (Hon b Hb).
Qed.

Lemma one_target_nil : one_target (@nil (Node B)).
Proof. split; [simpl; lia|]. by intros a b Ha%elem_of_nil. Qed.

(** The shape of [validateElement]: reads, then at most one run of the
    executor, then the closing clock reading. *)
Lemma validateElement_dispatches Q selector description childSelector interactionTest :
  Q [] ->
  (forall el it s0, interactionTest = Some it ->
     dispatches B Q (testInteractionWithDomAnalysis B el it s0)) ->
  dispatches B Q (validateElement B selector description childSelector interactionTest).
Proof.
  intros HQ Hexec. unfold validateElement.
  apply dispatches_after_quiet; [done|apply acts_on_now|intros testStart].
  apply dispatches_after_quiet; [done|by apply acts_on_call|intros [container|]].
  - apply dispatches_after_quiet; [done|apply acts_on_analyzeAccessibility|intros details].
    apply dispatches_after_quiet; [done|apply acts_on_when, acts_on_log|intros _].
    apply dispatches_after_quiet; [done|apply acts_on_captureNearbyElements|intros s0].
    destruct (truthy childSelector).
    + apply dispatches_after_quiet; [done|by apply acts_on_call|intros [child|]].
      * apply dispatches_after_quiet;
          [done|apply acts_on_analyzeAccessibility|intros childDetails].
        apply dispatches_after_quiet; [done|apply acts_on_when, acts_on_log|intros _].
        destruct interactionTest as [it|].
        -- apply dispatches_before_quiet; [by apply Hexec|intros ?; apply finish_quiet].
        -- apply dispatches_quiet; [done|apply finish_quiet].
      * apply dispatches_after_quiet; [done|apply acts_on_when, acts_on_log|intros _].
        apply dispatches_quiet; [done|apply finish_quiet].
    + destruct interactionTest as [it|].
      * apply dispatches_before_quiet; [by apply Hexec|intros ?; apply finish_quiet].
      * apply dispatches_quiet; [done|apply finish_quiet].
  - apply dispatches_after_quiet; [done|apply acts_on_when, acts_on_log|intros _].
    apply dispatches_quiet; [done|apply finish_quiet].
Qed.

End Probe.

(** X11. A probe acts on the page through its interaction only: without an
    interaction spec it dispatches no action, whatever the page does and
    whether it returns or throws; with one it dispatches at most two
    actions, all on the same element. *)
Theorem validateElement_actions (B : Browser) selector description childSelector
    interactionTest (w : World B) :
  let t := snd (validateElement B selector description childSelector interactionTest w) in
  (interactionTest = None -> targets t = [])
  /\ (length (targets t) <= 2)%nat
  /\ (forall a b, a ∈ targets t -> b ∈ targets t -> a = b).
Proof.
  intros t. subst t. split.
  - intros ->.
    apply (validateElement_dispatches B (fun l => l = []) selector description
             childSelector None eq_refl); discriminate.
  - apply (validateElement_dispatches B one_target selector description childSelector
             interactionTest (one_target_nil B)).
    intros el it s0 _. apply testInteraction_one_target.
Qed.

Lemma validateElement_actions_witness :
  targets (snd (validateElement form_page VALIDATION_SELECTORS.promoCodeDiv
                  (Some "Promo code section") (Some "input") None Demo.start)) = [].
Proof.
  apply (validateElement_actions form_page VALIDATION_SELECTORS.promoCodeDiv
           (Some "Promo code section") (Some "input") None Demo.start).
  reflexivity.
Defined.

Section Failures.
Context (B : Browser).

Lemma quiet_on_throw_quiet {A} (m : M B A) :
  acts_on B (fun _ => False) m -> quiet_on_throw B m.
Proof. intros Hm w e w' t H. pose proof (quiet_targets B m w Hm) as Hq. by rewrite H in Hq. Qed.

Lemma quiet_on_throw_bind {A C} (m : M B A) (k : A -> M B C) :
  acts_on B (fun _ => False) m -> (forall a, quiet_on_throw B (k a)) ->
  quiet_on_throw B (bind B m k).
Proof.
  intros Hm Hk w e w' t. pose proof (quiet_targets B m w Hm) as Hq. unfold bind.
  destruct (m w) as [[[a|e'] w1] t1]; simpl in *; [|by intros [= _ _ <-]].
  destruct (k a w1) as [[r w2] t2] eqn:Hka. intros [= -> -> <-].
  by rewrite targets_app, Hq, (Hk a w1 e w' t2 Hka).
Qed.

Lemma quiet_on_throw_never {A} (m : M B A) : never_throws B m -> quiet_on_throw B m.
Proof. intros Hm w e w' t H. destruct (Hm w) as (a & w1 & t1 & Hok). congruence. Qed.

Lemma never_throws_bind {A C} (m : M B A) (k : A -> M B C) :
  never_throws B m -> (forall a, never_throws B (k a)) -> never_throws B (bind B m k).
Proof.
  intros Hm Hk w. destruct (Hm w) as (a & w1 & t1 & Hok).
  destruct (Hk a w1) as (c & w2 & t2 & Hok2).
  exists c, w2, (t1 ++ t2). by eapply bind_ok.
Qed.

Lemma never_throws_finish ts a b c d e f : never_throws B (finish B ts a b c d e f).
Proof. intros w. rewrite finish_run. by do 3 eexists. Qed.

Lemma never_throws_testInteraction el it s0 :
  never_throws B (testInteractionWithDomAnalysis B el it s0).
Proof.
  intros w. destruct (testInteraction_total B el it s0 w) as (r & dc & w' & t & H & _).
  by exists (r, dc), w', t.
Qed.

Lemma validateElement_quiet_on_throw selector description childSelector interactionTest :
  quiet_on_throw B (validateElement B selector description childSelector interactionTest).
Proof.
  assert (forall ts a b c d, quiet_on_throw B (finish B ts a b c d None None)) as Hfinish.
  { intros. apply quiet_on_throw_never, never_throws_finish. }
  assert (forall el it s0 ts a b c,
    quiet_on_throw B
      (bind B (testInteractionWithDomAnalysis B el it s0)
         (fun interactionData =>
            finish B ts true a b c (Some (fst interactionData)) (snd interactionData))))
    as Hexec.
  { intros. apply quiet_on_throw_never, never_throws_bind;
      [apply never_throws_testInteraction|intros ?; apply never_throws_finish]. }
  unfold validateElement.
  apply quiet_on_throw_bind; [apply acts_on_now|intros testStart].
  apply quiet_on_throw_bind; [by apply acts_on_call|intros [container|]].
  - apply quiet_on_throw_bind; [apply acts_on_analyzeAccessibility|intros details].
    apply quiet_on_throw_bind; [apply acts_on_when, acts_on_log|intros _].
    apply quiet_on_throw_bind; [apply acts_on_captureNearbyElements|intros s0].
    destruct (truthy childSelector).
    + apply quiet_on_throw_bind; [by apply acts_on_call|intros [child|]].
      * apply quiet_on_throw_bind; [apply acts_on_analyzeAccessibility|intros childDetails].
        apply quiet_on_throw_bind; [apply acts_on_when, acts_on_log|intros _].
        destruct interactionTest as [it|]; [apply Hexec|apply Hfinish].
      * apply quiet_on_throw_bind; [apply acts_on_when, acts_on_log|intros _].
        apply Hfinish.
    + destruct interactionTest as [it|]; [apply Hexec|apply Hfinish].
  - apply quiet_on_throw_bind; [apply acts_on_when, acts_on_log|intros _].
    apply Hfinish.
Qed.

(** *** What [validateElement] returns *)

Lemma returns_bind {A C} (P : A -> Prop) (Q : C -> Prop) (m : M B A) (k : A -> M B C) :
  returns B P m -> (forall a, P a -> returns B Q (k a)) -> returns B Q (bind B m k).
Proof.
  intros Hm Hk w c w' t (a & w1 & t1 & t2 & H1 & H2 & _)%bind_ok_inv.
  exact (Hk a (Hm w a w1 t1 H1) w1 c w' t2 H2).
Qed.

Lemma returns_any {A} (m : M B A) : returns B (fun _ => True) m.
Proof. by intros w a w' t _. Qed.

Lemma returns_finish (Q : ValidationResult.t -> Prop) ts a b c d e f :
  (forall executionTime, Q (ValidationResult.mk a b c d e f executionTime)) ->
  returns B Q (finish B ts a b c d e f).
Proof. intros HQ w v w' t. rewrite finish_run. intros [= <- _ _]. apply HQ. Qed.

(** An outcome and a report that go together, for the spec [it]. *)
Lemma returns_testInteraction el it s0 :
  returns B
    (fun x => InteractionResult.type (fst x) = InteractionSpec.type it
              /\ (InteractionResult.success (fst x) = true <-> is_Some (snd x)))
    (testInteractionWithDomAnalysis B el it s0).
Proof.
  intros w [r dc] w' t
    [(d & sc & w2 & n & _ & _ & -> & -> & _)|(e & w2 & _ & -> & -> & _)]%testInteraction_inv;
    simpl; (split; [done|]); split; try done; by intros [? ?].
Qed.

Lemma validateElement_returns (Q : ValidationResult.t -> Prop) selector description
    childSelector interactionTest :
  (forall tm, Q (ValidationResult.mk false None false None None None tm)) ->
  (forall d tm, truthy childSelector = true ->
     Q (ValidationResult.mk true (Some d) false None None None tm)) ->
  (forall d tm, truthy childSelector = false -> interactionTest = None ->
     Q (ValidationResult.mk true (Some d) false None None None tm)) ->
  (forall d cd tm, truthy childSelector = true -> interactionTest = None ->
     Q (ValidationResult.mk true (Some d) true (Some cd) None None tm)) ->
  (forall d childFound cd r dc tm it,
     interactionTest = Some it ->
     InteractionResult.type r = InteractionSpec.type it ->
     (InteractionResult.success r = true <-> is_Some dc) ->
     (truthy childSelector = true /\ childFound = true /\ is_Some cd
      \/ truthy childSelector = false /\ childFound = false /\ cd = None) ->
     Q (ValidationResult.mk true (Some d) childFound cd (Some r) dc tm)) ->
  returns B Q (validateElement B selector description childSelector interactionTest).
Proof.
  intros Hnone Hmissing Hbare Hchild Hrun. unfold validateElement.
  apply (returns_bind _ _ _ _ (returns_any _)). intros testStart _.
  apply (returns_bind _ _ _ _ (returns_any _)). intros [container|] _.
  - apply (returns_bind _ _ _ _ (returns_any _)). intros details _.
    apply (returns_bind _ _ _ _ (returns_any _)). intros _ _.
    apply (returns_bind _ _ _ _ (returns_any _)). intros s0 _.
    destruct (truthy childSelector) eqn:Hcs.
    + apply (returns_bind _ _ _ _ (returns_any _)). intros [child|] _.
      * apply (returns_bind _ _ _ _ (returns_any _)). intros childDetails _.
        apply (returns_bind _ _ _ _ (returns_any _)). intros _ _.
        destruct interactionTest as [it|].
        -- apply (returns_bind _ _ _ _ (returns_testInteraction _ it _)).
           intros [r dc] [Ht Hs]. apply returns_finish. intros tm.
           apply (Hrun _ _ _ _ _ _ it); [done..|]. left. by repeat split.
        -- apply returns_finish. intros tm. by apply Hchild.
      * apply (returns_bind _ _ _ _ (returns_any _)). intros _ _.
        apply returns_finish. intros tm. by apply Hmissing.
    + destruct interactionTest as [it|].
      * apply (returns_bind _ _ _ _ (returns_testInteraction _ it _)).
        intros [r dc] [Ht Hs]. apply returns_finish. intros tm.
        apply (Hrun _ _ _ _ _ _ it); [done..|]. by right.
      * apply returns_finish. intros tm. by apply Hbare.
  - apply (returns_bind _ _ _ _ (returns_any _)). intros _ _.
    apply returns_finish. intros tm. apply Hnone.
Qed.

End Failures.

(** X12. When [validateElement] throws, no action has been dispatched on
    the page: an exception can only leave it from the lookups, the
    analysis or the first capture, never after an interaction. *)
Theorem validateElement_throws_before_acting (B : Browser) selector description
    childSelector interactionTest (w : World B) e w' t :
  validateElement B selector description childSelector interactionTest w = (Throw e, w', t) ->
  targets t = [].
Proof. apply validateElement_quiet_on_throw. Qed.

Lemma validateElement_throws_before_acting_witness :
  targets (snd (validateElement Demo.browser "#stale" None None (Some Demo.clickSpec)
                  Demo.start)) = [].
Proof.
  apply (validateElement_throws_before_acting Demo.browser "#stale" None None
           (Some Demo.clickSpec) Demo.start Demo.detached (Demo.mkWorld 1001 false None)).
  reflexivity.
Defined.

Ltac result_case :=
  simpl; unfold is_Some in *; repeat split; intros;
  repeat match goal with
         | H : exists _, _ |- _ => destruct H
         | H : _ /\ _ |- _ => destruct H
         | H : ?P -> _, H' : ?P |- _ => specialize (H H')
         end;
  simplify_eq; eauto; try done; try congruence.

(** X13. Every result [validateElement] returns is well formed: [details]
    is set exactly when the container was found and [childDetails] exactly
    when the child was; a child is found only in a found container and
    with a child selector supplied; an interaction result is present
    exactly when the container was found, a spec was supplied and, with a
    child selector supplied, the child was found; the diff report is
    present exactly when the interaction succeeded; and the interaction
    result carries the type of the spec. *)
Theorem validateElement_result (B : Browser) selector description childSelector
    interactionTest (w : World B) v w' t :
  validateElement B selector description childSelector interactionTest w = (Ok v, w', t) ->
  (ValidationResult.found v = true <-> is_Some (ValidationResult.details v))
  /\ (ValidationResult.childFound v = true <-> is_Some (ValidationResult.childDetails v))
  /\ (ValidationResult.childFound v = true ->
      ValidationResult.found v = true /\ truthy childSelector = true)
  /\ (is_Some (ValidationResult.interactionResult v) <->
      ValidationResult.found v = true /\ is_Some interactionTest
      /\ (truthy childSelector = true -> ValidationResult.childFound v = true))
  /\ (is_Some (ValidationResult.domChanges v) <->
      exists r, ValidationResult.interactionResult v = Some r
                /\ InteractionResult.success r = true)
  /\ (forall r it, ValidationResult.interactionResult v = Some r ->
        interactionTest = Some it ->
        InteractionResult.type r = InteractionSpec.type it).
Proof.
  revert w v w' t.
  apply (validateElement_returns B _ selector description childSelector interactionTest).
  - intros tm. result_case.
  - intros d tm Hcs. result_case.
  - intros d tm Hcs ->. result_case.
  - intros d cd tm Hcs ->. result_case.
  - intros d childFound cd r dc tm it -> Ht [Hs1 Hs2] Hcase.
    destruct Hcase as [(Hcs & -> & [? ->])|(Hcs & -> & ->)]; result_case.
Qed.

Lemma validateElement_result_witness :
  exists v w' t,
    validateElement form_page VALIDATION_SELECTORS.originField (Some "Origin field")
      (Some "input") (Some (InteractionSpec.mk focus None None)) Demo.start
    = (Ok v, w', t)
    /\ is_Some (ValidationResult.interactionResult v)
    /\ ValidationResult.childFound v = true.
Proof.
  destruct (validateElement form_page VALIDATION_SELECTORS.originField (Some "Origin field")
              (Some "input") (Some (InteractionSpec.mk focus None None)) Demo.start)
    as [[[v|e] w'] t] eqn:Hrun; [|by vm_compute in Hrun].
  destruct (validateElement_result form_page _ _ _ _ _ v w' t Hrun)
    as (_ & _ & _ & Hir & _).
  assert (ValidationResult.childFound v = true) as Hchild.
  { vm_compute in Hrun. by injection Hrun as <- _ _. }
  assert (ValidationResult.found v = true) as Hfound.
  { vm_compute in Hrun. by injection Hrun as <- _ _. }
  exists v, w', t. split; [reflexivity|]. split; [|exact Hchild].
  apply Hir. split; [exact Hfound|]. split; [by eexists|]. by intros _.
Defined.

(** ** The handler's probes and its report *)

Lemma filter_filter_length {A} (p q : A -> bool) (l : list A) :
  (length (List.filter p (List.filter q l)) <= length (List.filter p l))%nat.
Proof.
  induction l as [|x l IH]; simpl; [lia|].
  destruct (q x), (p x) eqn:Hp; simpl; rewrite ?Hp; simpl; lia.
Qed.

Lemma filter_all {A} (p : A -> bool) (l : list A) :
  length (List.filter p l) = length l <-> forall x, x ∈ l -> p x = true.
Proof.
  induction l as [|x l IH]; simpl.
  - split; [|done]. by intros _ x H%elem_of_nil.
  - pose proof (sublist_length _ _ (filter_sublist p l)) as Hle.
    destruct (p x) eqn:Hp; simpl.
    + split.
      * intros [= H]. pose proof (proj1 IH H) as Hall.
        by intros y [->|Hy]%elem_of_cons; [|apply Hall].
      * intros H. f_equal. apply IH. intros y Hy. apply H. by apply list_elem_of_further.
    + split; [lia|]. intros H. specialize (H x (list_elem_of_here _ _)). congruence.
Qed.

(** X14. The lists of the report nest: the accessible and the interactive
    elements are taken, in order, among the total elements, themselves
    taken among the seven results; so no count exceeds the total count,
    and the total count is at most 7. When all the containers were found
    the total is the seven results. *)
Theorem report_lists (d : DivTests.t) :
  accessibleElements d `sublist_of` totalInteractiveElements d
  /\ interactiveElements d `sublist_of` totalInteractiveElements d
  /\ totalInteractiveElements d `sublist_of` DivTests.results d
  /\ (length (accessibleElements d) <= length (totalInteractiveElements d) <= 7)%nat
  /\ (length (interactiveElements d) <= length (totalInteractiveElements d))%nat
  /\ (allElementsFound d = true -> totalInteractiveElements d = DivTests.results d).
Proof.
  unfold accessibleElements, interactiveElements, totalInteractiveElements.
  split; [apply filter_sublist|]. split; [apply filter_sublist|].
  split; [apply filter_sublist|]. split; [split|split].
  - apply sublist_length, filter_sublist.
  - apply (sublist_length _ (DivTests.results d)), filter_sublist.
  - apply sublist_length, filter_sublist.
  - unfold allElementsFound. intros H.
    repeat (apply andb_true_iff in H as [H ?]).
    unfold DivTests.results. simpl.
    by repeat match goal with
              | Hf : ValidationResult.found _ = true |- _ =>
                  rewrite Hf, orb_true_r; clear Hf
              end.
Qed.

Lemma report_lists_witness :
  exists d w' t,
    runProbes form_page Demo.start = (Ok d, w', t)
    /\ totalInteractiveElements d = DivTests.results d.
Proof.
  destruct (runProbes form_page Demo.start) as [[[d|e] w'] t] eqn:Hrun;
    [|by vm_compute in Hrun].
  exists d, w', t. split; [reflexivity|].
  apply (report_lists d).
  vm_compute in Hrun. by injection Hrun as <- _ _.
Defined.

Section Handler.
Context (B : Browser).

Lemma returns_ret {A} (Q : A -> Prop) (a : A) : Q a -> returns B Q (ret B a).
Proof. by intros HQ w a' w' t [= <- _ _]. Qed.

(** A result of [validateElement] finds a child only in a found container;
    without an interaction spec it carries no interaction result, and
    without a child selector no child. *)
Lemma validateElement_probe selector description childSelector interactionTest :
  returns B
    (fun v =>
       (ValidationResult.childFound v = true -> ValidationResult.found v = true)
       /\ (interactionTest = None -> ValidationResult.interactionResult v = None)
       /\ (childSelector = None -> ValidationResult.childFound v = false))
    (validateElement B selector description childSelector interactionTest).
Proof.
  apply validateElement_returns; simpl; try done.
  - intros d cd tm Hcs _. repeat split; try done. by intros ->.
  - intros d childFound cd r dc tm it -> _ _ [(Hcs & _)|(_ & -> & _)]; [|done].
    repeat split; try done. by intros ->.
Qed.

Lemma dispatches_length_bind {A C} (n1 n2 : nat) (m : M B A) (k : A -> M B C) :
  dispatches B (fun l => (length l <= n1)%nat) m ->
  (forall a, dispatches B (fun l => (length l <= n2)%nat) (k a)) ->
  dispatches B (fun l => (length l <= n1 + n2)%nat) (bind B m k).
Proof.
  intros Hm Hk w. specialize (Hm w). unfold bind.
  destruct (m w) as [[[a|e] w1] t1]; simpl in *; [|lia].
  specialize (Hk a w1). destruct (k a w1) as [[r w2] t2]; simpl in *.
  rewrite targets_app, length_app. lia.
Qed.

Lemma testInteraction_single el it s0 :
  InteractionSpec.type it <> keydown ->
  dispatches B (fun l => (length l <= 1)%nat) (testInteractionWithDomAnalysis B el it s0).
Proof.
  intros Hkind w. rewrite testInteraction_events.
  pose proof (interaction_body_trace B el it s0 (snd (Date_now B w))) as Hpre.
  apply targets_prefix, prefix_length in Hpre.
  etrans; [exact Hpre|].
  unfold targets. simpl. rewrite omap_app. simpl. rewrite app_nil_r.
  unfold actions_of. by destruct (InteractionSpec.type it).
Qed.

Lemma validateElement_single selector description childSelector it :
  InteractionSpec.type it <> keydown ->
  dispatches B (fun l => (length l <= 1)%nat)
    (validateElement B selector description childSelector (Some it)).
Proof.
  intros Hkind. apply validateElement_dispatches; [simpl; lia|].
  intros el it' s0 [= <-]. by apply testInteraction_single.
Qed.

Lemma validateElement_silent selector description childSelector :
  dispatches B (fun l => (length l <= 0)%nat)
    (validateElement B selector description childSelector None).
Proof. apply validateElement_dispatches; [simpl; lia|discriminate]. Qed.

End Handler.

(** X15. Of the handler's seven probes, in this order, only the journey
    type, the origin field and the search button carry an interaction: the
    four others return no interaction result, and the search button, probed
    without a child selector, no child. So at most three elements count as
    interactive, and the seven probes together dispatch at most three
    actions on the page. On their results the total elements are the
    results whose container was found, and all containers were found
    exactly when the total is seven. *)
Theorem runProbes_report (B : Browser) (w : World B) :
  (length (targets (snd (runProbes B w))) <= 3)%nat
  /\ forall d w' t,
       runProbes B w = (Ok d, w', t) ->
       Forall (fun v => ValidationResult.interactionResult v = None)
         [DivTests.travelerInfoDiv d; DivTests.promoCodeDiv d;
          DivTests.startDateToggler d; DivTests.endDateToggler d]
       /\ ValidationResult.childFound (DivTests.searchButton d) = false
       /\ (length (interactiveElements d) <= 3)%nat
       /\ totalInteractiveElements d
          = List.filter ValidationResult.found (DivTests.results d)
       /\ (allElementsFound d = true <-> length (totalInteractiveElements d) = 7%nat).
Proof.
  split.
  - unfold runProbes.
    apply (dispatches_length_bind B 1 2); [by apply validateElement_single|intros v1].
    apply (dispatches_length_bind B 0 2); [apply validateElement_silent|intros v2].
    apply (dispatches_length_bind B 0 2); [apply validateElement_silent|intros v3].
    apply (dispatches_length_bind B 1 1); [by apply validateElement_single|intros v4].
    apply (dispatches_length_bind B 0 1); [apply validateElement_silent|intros v5].
    apply (dispatches_length_bind B 0 1); [apply validateElement_silent|intros v6].
    apply (dispatches_length_bind B 1 0); [by apply validateElement_single|intros v7].
    intros w0. simpl. lia.
  - revert w. unfold runProbes.
    apply (returns_bind B _ _ _ _ (validateElement_probe B _ _ _ _)).
    intros v1 (Hc1 & _ & _).
    apply (returns_bind B _ _ _ _ (validateElement_probe B _ _ _ _)).
    intros v2 (Hc2 & Hi2 & _).
    apply (returns_bind B _ _ _ _ (validateElement_probe B _ _ _ _)).
    intros v3 (Hc3 & Hi3 & _).
    apply (returns_bind B _ _ _ _ (validateElement_probe B _ _ _ _)).
    intros v4 (Hc4 & _ & _).
    apply (returns_bind B _ _ _ _ (validateElement_probe B _ _ _ _)).
    intros v5 (Hc5 & Hi5 & _).
    apply (returns_bind B _ _ _ _ (validateElement_probe B _ _ _ _)).
    intros v6 (Hc6 & Hi6 & _).
    apply (returns_bind B _ _ _ _ (validateElement_probe B _ _ _ _)).
    intros v7 (Hc7 & _ & Hs7).
    apply returns_ret.
    specialize (Hi2 eq_refl). specialize (Hi3 eq_refl).
    specialize (Hi5 eq_refl). specialize (Hi6 eq_refl). specialize (Hs7 eq_refl).
    assert (forall v, (ValidationResult.childFound v = true -> ValidationResult.found v = true) ->
              ValidationResult.childFound v || ValidationResult.found v
              = ValidationResult.found v) as Hor.
    { intros v H. destruct (ValidationResult.childFound v); [by rewrite H|done]. }
    assert (totalInteractiveElements (DivTests.mk v1 v2 v3 v4 v5 v6 v7)
            = List.filter ValidationResult.found
                (DivTests.results (DivTests.mk v1 v2 v3 v4 v5 v6 v7))) as Htotal.
    { unfold totalInteractiveElements, DivTests.results. simpl.
      by rewrite !Hor by done. }
    split; [by repeat constructor|]. split; [done|]. split; [|split; [done|]].
    + unfold interactiveElements.
      etrans; [apply filter_filter_length|].
      unfold DivTests.results. simpl. rewrite Hi2, Hi3, Hi5, Hi6. simpl.
      repeat case_match; simpl; lia.
    + rewrite Htotal, (filter_all ValidationResult.found). unfold allElementsFound. simpl.
      rewrite !andb_true_iff. split.
      * intros H x Hx. repeat (apply elem_of_cons in Hx as [->|Hx]; [tauto|]).
        by apply elem_of_nil in Hx.
      * intros H. repeat split; apply H; repeat constructor.
Qed.

Lemma runProbes_report_witness :
  exists d w' t,
    runProbes form_page Demo.start = (Ok d, w', t)
    /\ length (targets t) = 3%nat
    /\ length (interactiveElements d) = 3%nat
    /\ allElementsFound d = true.
Proof.
  destruct (runProbes form_page Demo.start) as [[[d|e] w'] t] eqn:Hrun;
    [|by vm_compute in Hrun].
  destruct (proj2 (runProbes_report form_page Demo.start) d w' t Hrun)
    as (_ & _ & _ & _ & Hall).
  exists d, w', t. split; [reflexivity|].
  vm_compute in Hrun. injection Hrun as <- _ <-.
  split; [reflexivity|]. split; [reflexivity|]. apply Hall. reflexivity.
Defined.

(** ** The analyzer *)

Lemma find_app {A} (p : A -> bool) (l1 l2 : list A) :
  List.find p (l1 ++ l2)
  = match List.find p l1 with Some x => Some x | None => List.find p l2 end.
Proof. induction l1 as [|x l1 IH]; simpl; [done|]. by destruct (p x). Qed.

Lemma last_value_cons a attrs name :
  last_value (a :: attrs) name
  = match last_value attrs name with
    | Some v => Some v
    | None => if String.eqb (fst a) name then Some (snd a) else None
    end.
Proof.
  unfold last_value. simpl. rewrite find_app. simpl.
  destruct (List.find _ (rev attrs)); simpl; [done|]. by destruct (String.eqb (fst a) name).
Qed.

Lemma aria_name_spec name :
  String.prefix "aria-" name || String.eqb name "role" = true <-> aria_name name.
Proof. unfold aria_name. by rewrite orb_true_iff, prefix_spec, String.eqb_eq. Qed.

Lemma ariaAttributes_fold attrs : forall (m : gmap string string) name,
  fold_left
    (fun aria attr =>
       if String.prefix "aria-" (fst attr) || String.eqb (fst attr) "role"
       then <[fst attr := snd attr]> aria
       else aria)
    attrs m !! name
  = if String.prefix "aria-" name || String.eqb name "role"
    then match last_value attrs name with Some v => Some v | None => m !! name end
    else m !! name.
Proof.
  induction attrs as [|a attrs IH]; intros m name.
  - unfold last_value. simpl. by case_match.
  - simpl. rewrite IH, last_value_cons.
    destruct (String.prefix "aria-" name || String.eqb name "role") eqn:Hname.
    + destruct (last_value attrs name); [done|].
      destruct (String.eqb (fst a) name) eqn:Ha.
      * apply String.eqb_eq in Ha. subst name. rewrite Hname. apply lookup_insert_eq.
      * apply String.eqb_neq in Ha. case_match; [by rewrite lookup_insert_ne|done].
    + destruct (String.prefix "aria-" (fst a) || String.eqb (fst a) "role") eqn:Ha; [|done].
      rewrite lookup_insert_ne; [done|]. intros Heq. rewrite Heq in Ha. congruence.
Qed.

Lemma find_unique (attrs : list (string * string)) name :
  NoDup attrs.*1 ->
  List.find (fun a => String.eqb (fst a) name) (rev attrs)
  = List.find (fun a => String.eqb (fst a) name) attrs.
Proof.
  induction attrs as [|a attrs IH]; [done|].
  intros [Hnotin Hnodup]%NoDup_cons. simpl. rewrite find_app, IH by done. simpl.
  destruct (List.find _ attrs) as [x|] eqn:Hfind; [|done].
  apply find_some in Hfind as [Hin Hx]. apply String.eqb_eq in Hx.
  destruct (String.eqb (fst a) name) eqn:Ha; [|done].
  apply String.eqb_eq in Ha. exfalso. apply Hnotin.
  rewrite Ha, <- Hx. apply list_elem_of_fmap. exists x. by rewrite list_elem_of_In.
Qed.

(** X16. The aria attributes the analyzer keeps are the attributes whose
    name starts with "aria-" or is "role", and nothing else; each carries
    the value of the last attribute of that name, which is the value
    [getAttribute] reads when no two attributes share a name. *)
Theorem ariaAttributes_spec (B : Browser) (w : World B) (el : Node B) :
  (forall name v, ariaAttributes_cb B w el !! name = Some v ->
     aria_name name /\ last_value (attributes B w el) name = Some v)
  /\ (forall name, aria_name name ->
        ariaAttributes_cb B w el !! name = last_value (attributes B w el) name)
  /\ (NoDup (attributes B w el).*1 ->
      forall name, aria_name name ->
        ariaAttributes_cb B w el !! name = getAttribute B w el name).
Proof.
  assert (forall name, aria_name name ->
            ariaAttributes_cb B w el !! name = last_value (attributes B w el) name) as Hin.
  { intros name Hname%aria_name_spec. unfold ariaAttributes_cb.
    rewrite ariaAttributes_fold, Hname, lookup_empty. by destruct (last_value _ _). }
  split; [|split; [exact Hin|]].
  - intros name v. unfold ariaAttributes_cb. rewrite ariaAttributes_fold, lookup_empty.
    destruct (String.prefix "aria-" name || String.eqb name "role") eqn:Hname; [|done].
    apply aria_name_spec in Hname. by destruct (last_value _ _).
  - intros Hnodup name Hname. rewrite (Hin name Hname).
    unfold last_value, getAttribute. by rewrite find_unique.
Qed.

Lemma ariaAttributes_spec_witness :
  ariaAttributes_cb Demo.browser Demo.start 1%nat !! "aria-labelledby" = Some "trip-label"
  /\ ariaAttributes_cb Demo.browser Demo.start 1%nat !! "title" = None.
Proof.
  destruct (ariaAttributes_spec Demo.browser Demo.start 1%nat) as (Honly & _ & Hget).
  split.
  - rewrite Hget; [reflexivity| |left; by exists "labelledby"].
    by apply (bool_decide_unpack _).
  - destruct (ariaAttributes_cb Demo.browser Demo.start 1%nat !! "title") as [v|] eqn:Hv;
      [|reflexivity].
    destruct (Honly "title" v Hv) as [[[rest Hrest]|Hrole] _]; discriminate.
Defined.

(** X17. A natively interactive element (a button, an anchor, an input, a
    select or a textarea) is both focusable and semantically valid for the
    analyzer, whatever its attributes. An element is semantically valid
    exactly when it is natively interactive or has a [role] attribute, so
    one that is valid without a [role] attribute is focusable. *)
Theorem native_interactive_elements (B : Browser) (w : World B) (el : Node B) :
  (native_interactive (el_tagName B w el) ->
   isFocusable_cb B w el = true /\ hasValidSemantics_cb B w el = true)
  /\ (hasValidSemantics_cb B w el = true <->
      native_interactive (el_tagName B w el) \/ is_Some (getAttribute B w el "role"))
  /\ (hasValidSemantics_cb B w el = true -> getAttribute B w el "role" = None ->
      isFocusable_cb B w el = true).
Proof.
  assert (native_interactive (el_tagName B w el) ->
          bool_decide (el_tagName B w el ∈ ["INPUT"; "BUTTON"; "SELECT"; "TEXTAREA"; "A"])
          = true) as Hfocus.
  { intros H. apply bool_decide_eq_true. unfold native_interactive in H.
    rewrite !elem_of_cons in H. rewrite !elem_of_cons. tauto. }
  assert (hasValidSemantics_cb B w el = true <->
          native_interactive (el_tagName B w el) \/ is_Some (getAttribute B w el "role"))
    as Hvalid.
  { unfold hasValidSemantics_cb, hasAttribute, native_interactive.
    by rewrite orb_true_iff, !bool_decide_eq_true. }
  split; [|split; [exact Hvalid|]].
  - intros H. split; [|apply Hvalid; by left].
    unfold isFocusable_cb. by rewrite (Hfocus H), orb_true_r.
  - intros [H|[v Hv]]%Hvalid Hrole; [|congruence].
    unfold isFocusable_cb. by rewrite (Hfocus H), orb_true_r.
Qed.

Lemma native_interactive_elements_witness :
  isFocusable_cb Demo.browser Demo.start 1%nat = true
  /\ hasValidSemantics_cb Demo.browser Demo.start 1%nat = true.
Proof.
  apply (native_interactive_elements Demo.browser Demo.start 1%nat).
  unfold native_interactive. simpl. apply list_elem_of_here.
Defined.

Lemma js_or_not_empty (a b : option string) : b <> Some "" -> js_or a b <> Some "".
Proof.
  unfold js_or. destruct a as [s|]; simpl; [|done].
  destruct (String.eqb s "") eqn:Hs; simpl; [done|].
  apply String.eqb_neq in Hs. congruence.
Qed.

(** X18. An accessible name is never the empty string: it is null or a
    non-empty string, so testing it for truth, as the handler does, is
    testing it for presence. This holds of the name the analyzer
    returns. *)
Theorem accessibleName_not_empty (B : Browser) (el : Node B) :
  (forall w, accessibleName_cb B w el <> Some ""
             /\ truthy (accessibleName_cb B w el)
                = bool_decide (is_Some (accessibleName_cb B w el)))
  /\ (forall w a w' t,
        analyzeAccessibility B el w = (Ok a, w', t) ->
        Accessibility.accessibleName a <> Some "").
Proof.
  assert (forall w, accessibleName_cb B w el <> Some "") as Hname.
  { intros w. unfold accessibleName_cb. by repeat apply js_or_not_empty. }
  split.
  - intros w. split; [apply Hname|]. specialize (Hname w).
    destruct (accessibleName_cb B w el) as [s|]; simpl; [|done].
    destruct (String.eqb s "") eqn:Hs; [|done].
    apply String.eqb_eq in Hs. congruence.
  - intros w a w' t. unfold analyzeAccessibility.
    intros (a1 & w1 & t1 & ? & _ & H & ->)%bind_ok_inv.
    apply bind_ok_inv in H as (a2 & w2 & t2 & ? & _ & H & ->).
    apply bind_ok_inv in H as (a3 & w3 & t3 & ? & _ & H & ->).
    apply bind_ok_inv in H as (a4 & w4 & t4 & ? & _ & H & ->).
    apply bind_ok_inv in H as (a5 & w5 & t5 & ? & (_ & -> & _)%evaluate_ok_inv & H & ->).
    apply bind_ok_inv in H as (a6 & w6 & t6 & ? & _ & H & ->).
    injection H as <- _ _. simpl. apply Hname.
Qed.

Lemma accessibleName_not_empty_witness :
  exists a w' t,
    analyzeAccessibility Demo.browser 0%nat Demo.start = (Ok a, w', t)
    /\ Accessibility.accessibleName a <> Some "".
Proof.
  destruct (analyzeAccessibility Demo.browser 0%nat Demo.start) as [[[a|e] w'] t] eqn:Hrun;
    [|by vm_compute in Hrun].
  exists a, w', t. split; [reflexivity|].
  exact (proj2 (accessibleName_not_empty Demo.browser 0%nat) Demo.start a w' t Hrun).
Defined.

(** ** The element the interaction runs on *)

Section Target.
Context (B : Browser).

(** Whatever comes of it, a dispatch starts with an action on the
    element. *)
Lemma dispatch_first el it (w : World B) :
  exists e rest, snd (dispatch B el it w) = e :: rest /\ dispatch_target e = Some el.
Proof.
  unfold dispatch. destruct (InteractionSpec.type it).
  1-3: rewrite call_run; simpl; by do 2 eexists.
  unfold bind. rewrite call_run.
  destruct (elem_focus B el w) as [[[]|e] w1]; simpl; [|by do 2 eexists].
  destruct (if truthy (InteractionSpec.key it) then _ else _) as [[r w2] t2].
  simpl. by do 2 eexists.
Qed.

Lemma bind_events {A C} (m : M B A) (k : A -> M B C) (w : World B) :
  snd (bind B m k w)
  = match m w with
    | (Ok a, w1, t1) => t1 ++ snd (k a w1)
    | (Throw _, _, t1) => t1
    end.
Proof.
  unfold bind. destruct (m w) as [[[a|e] w1] t1]; [|done].
  by destruct (k a w1) as [[r w2] t2].
Qed.

(** The executor begins by reading the state of the element, and once
    that read has returned it dispatches an action on the element. *)
Lemma testInteraction_begins el it s0 (w : World B) :
  hd_error (snd (testInteractionWithDomAnalysis B el it s0 w)) = Some (EvEvaluate el)
  /\ (forall wa,
        elem_evaluate B el (snd (Date_now B w)) = (Ok tt, wa) ->
        exists rest,
          targets (snd (testInteractionWithDomAnalysis B el it s0 w)) = el :: rest).
Proof.
  rewrite testInteraction_events. unfold interaction_body. rewrite bind_events.
  pose proof (evaluate_events B el (elementState_cb B) (snd (Date_now B w))) as Hev.
  destruct (evaluate B el (elementState_cb B) (snd (Date_now B w)))
    as [[[a|e] w1] t1] eqn:Hread; simpl in Hev; subst t1.
  - split; [done|]. intros wa _. rewrite bind_events.
    destruct (dispatch_first el it w1) as (e & rest & Hd & He).
    destruct (dispatch B el it w1) as [[[u|x] w2] t2]; simpl in Hd; subst t2;
      unfold targets; simpl; rewrite He; by eexists.
  - split; [done|]. intros wa Hwa. unfold evaluate in Hread. by rewrite Hwa in Hread.
Qed.

End Target.

(** C8. On a found container, with an interaction spec supplied. With a
    child selector supplied and the child found, the executor is run on the
    child with the container's snapshot as the state before: its calls end
    the calls of the probe, they begin with the read of the child's state,
    an action is dispatched on the child as soon as that read has returned,
    every action is dispatched on the child, and on a success the calls are
    the read, the actions of the spec, the wait, the capture and the read,
    all on the child, and the report returned is the diff against a
    snapshot captured around the child. With no child selector supplied,
    the same holds with the container in the place of the child. With a
    child selector supplied and the child not found, no interaction is run
    and no action is dispatched. A child selector is supplied when the
    argument is a non-empty string, which is the test the code makes. *)
Theorem validateElement_interaction_target (B : Browser) selector description interactionTest
    (w0 w1 w2 w3 : World B) (container : Node B) details t2 :
  page_query B selector (snd (Date_now B w0)) = (Ok (Some container), w1) ->
  analyzeAccessibility B container w1 = (Ok details, w2, t2) ->
  page_evaluate B container w2 = (Ok tt, w3) ->
  let initialDomState := captureNearbyElements_cb B w3 container in
  let calls el :=
    EvEvaluate el :: actions_of el interactionTest
    ++ [EvWait 300; EvPageEvaluate el; EvEvaluate el] in
  let runs_on el wi (r : InteractionResult.t) (dc : option DomChanges.t) t6
      (t : list (Event (Node B))) :=
    (exists before, t = before ++ t6)
    /\ targets t = targets t6
    /\ Forall (eq el) (targets t)
    /\ hd_error t6 = Some (EvEvaluate el)
    /\ t6 `prefix_of` calls el
    /\ (forall wa, elem_evaluate B el (snd (Date_now B wi)) = (Ok tt, wa) ->
        exists rest, targets t = el :: rest)
    /\ (InteractionResult.success r = true ->
        t6 = calls el
        /\ targets t = targets (actions_of el interactionTest)
        /\ exists wf,
             dc = Some (analyzeDomChanges initialDomState
                          (captureNearbyElements_cb B wf el))) in
  (forall childSelector child w4 childDetails w5 t5,
     childSelector <> "" ->
     elem_query B container childSelector w3 = (Ok (Some child), w4) ->
     analyzeAccessibility B child w4 = (Ok childDetails, w5, t5) ->
     exists r dc w6 t6 v w' t,
       testInteractionWithDomAnalysis B child interactionTest initialDomState w5
       = (Ok (r, dc), w6, t6)
       /\ validateElement B selector description (Some childSelector)
            (Some interactionTest) w0 = (Ok v, w', t)
       /\ ValidationResult.childFound v = true
       /\ ValidationResult.interactionResult v = Some r
       /\ ValidationResult.domChanges v = dc
       /\ runs_on child w5 r dc t6 t)
  /\ (forall childSelector,
        truthy childSelector = false ->
        exists r dc w4 t4 v w' t,
          testInteractionWithDomAnalysis B container interactionTest initialDomState w3
          = (Ok (r, dc), w4, t4)
          /\ validateElement B selector description childSelector
               (Some interactionTest) w0 = (Ok v, w', t)
          /\ ValidationResult.childFound v = false
          /\ ValidationResult.interactionResult v = Some r
          /\ ValidationResult.domChanges v = dc
          /\ runs_on container w3 r dc t4 t)
  /\ (forall childSelector w4,
        childSelector <> "" ->
        elem_query B container childSelector w3 = (Ok None, w4) ->
        exists v w' t,
          validateElement B selector description (Some childSelector)
            (Some interactionTest) w0 = (Ok v, w', t)
          /\ ValidationResult.childFound v = false
          /\ ValidationResult.interactionResult v = None
          /\ ValidationResult.domChanges v = None
          /\ targets t = []).
Proof.
  intros Hcontainer Hdetails Hcapture initialDomState calls runs_on.
  pose proof (analyzeAccessibility_trace B _ _ _ _ _ Hdetails) as ->.
  (* what a run of the executor on [el] from [wi] gives, once its calls are
     known to end a trace [t] whose earlier calls dispatch nothing *)
  assert (forall el wi r dc w6 t6 before,
    testInteractionWithDomAnalysis B el interactionTest initialDomState wi
    = (Ok (r, dc), w6, t6) ->
    targets before = [] ->
    runs_on el wi r dc t6 (before ++ t6)) as Hruns.
  { intros el wi r dc w6 t6 before Hrun Hquiet. subst runs_on calls. cbv beta.
    pose proof (acts_on_testInteraction B el interactionTest initialDomState wi) as Hon.
    pose proof (testInteraction_begins B el interactionTest initialDomState wi)
      as [Hhead Hact].
    pose proof (interaction_body_trace B el interactionTest initialDomState
                  (snd (Date_now B wi))) as Hpre.
    rewrite <- testInteraction_events in Hpre.
    rewrite Hrun in Hon, Hhead, Hact, Hpre. simpl in Hon, Hhead, Hact, Hpre.
    rewrite targets_app, Hquiet. simpl.
    split; [by eexists|]. split; [done|]. split; [done|]. split; [done|].
    split; [done|]. split; [done|].
    intros Hok.
    apply testInteraction_inv in Hrun
      as [(d & sc & wb & n & Hbody & _ & _ & -> & _)|(e & wb & _ & -> & _)];
      [|discriminate].
    apply interaction_body_inv in Hbody
      as (wa & wc & ta & wd & wf & _ & Hd & _ & _ & _ & -> & _ & ->).
    destruct (dispatch_trace B el interactionTest wa) as [_ Hfull].
    rewrite Hd in Hfull. simpl in Hfull. rewrite (Hfull tt wc eq_refl).
    split; [done|]. split; [|by exists wf].
    unfold targets. simpl. rewrite omap_app. simpl. by rewrite app_nil_r. }
  split; [|split].
  - intros childSelector child w4 childDetails w5 t5 Hcs Hchild HchildDetails.
    destruct (testInteraction_total B child interactionTest initialDomState w5)
      as (r & dc & w6 & t6 & Hrun & _).
    pose proof (analyzeAccessibility_trace B _ _ _ _ _ HchildDetails) as ->.
    exists r, dc, w6, t6. do 3 eexists.
    split; [exact Hrun|].
    split; [by eapply validateElement_child_run|].
    split; [done|]. split; [done|]. split; [done|].
    match goal with
    | |- runs_on _ _ _ _ _ ?t =>
        replace t with
          (([EvQuery selector]
            ++ [EvEvaluate container; EvIsVisible container; EvEvaluate container;
                EvEvaluate container; EvEvaluate container; EvEvaluate container]
            ++ logged description ("✅ " +:+ default "" description +:+ " container found")
            ++ [EvPageEvaluate container; EvQueryIn container childSelector]
            ++ [EvEvaluate child; EvIsVisible child; EvEvaluate child;
                EvEvaluate child; EvEvaluate child; EvEvaluate child]
            ++ logged description
                 ("✅ Child element found within " +:+ default "" description))
           ++ t6)
          by (simpl; by rewrite <- ?app_assoc)
    end.
    apply (Hruns child w5 r dc w6 t6); [exact Hrun|].
    rewrite !targets_app, !targets_logged. reflexivity.
  - intros childSelector Hcs.
    destruct (testInteraction_total B container interactionTest initialDomState w3)
      as (r & dc & w4 & t4 & Hrun & _).
    exists r, dc, w4, t4. do 3 eexists.
    split; [exact Hrun|].
    split; [by eapply validateElement_direct_run|].
    split; [done|]. split; [done|]. split; [done|].
    match goal with
    | |- runs_on _ _ _ _ _ ?t =>
        replace t with
          (([EvQuery selector]
            ++ [EvEvaluate container; EvIsVisible container; EvEvaluate container;
                EvEvaluate container; EvEvaluate container; EvEvaluate container]
            ++ logged description ("✅ " +:+ default "" description +:+ " container found")
            ++ [EvPageEvaluate container])
           ++ t4)
          by (simpl; by rewrite <- ?app_assoc)
    end.
    apply (Hruns container w3 r dc w4 t4); [exact Hrun|].
    rewrite !targets_app, !targets_logged. reflexivity.
  - intros childSelector w4 Hcs Hchild. do 3 eexists.
    split; [by eapply validateElement_child_missing_run|].
    simpl. rewrite !targets_app, !targets_logged. repeat split.
    apply targets_logged.
Qed.

Lemma validateElement_interaction_target_witness :
  (exists v w' t,
     validateElement Demo.browser "#widget" None (Some "button") (Some Demo.clickSpec)
       Demo.start = (Ok v, w', t)
     /\ ValidationResult.childFound v = true
     /\ is_Some (ValidationResult.interactionResult v)
     /\ is_Some (ValidationResult.domChanges v)
     /\ targets t = [1%nat])
  /\ (exists v w' t,
        validateElement Demo.browser "#widget" None None (Some Demo.clickSpec)
          Demo.start = (Ok v, w', t)
        /\ is_Some (ValidationResult.interactionResult v)
        /\ is_Some (ValidationResult.domChanges v)
        /\ targets t = [0%nat])
  /\ (exists v w' t,
        validateElement Demo.browser "#widget" None (Some "input") (Some Demo.clickSpec)
          Demo.start = (Ok v, w', t)
        /\ ValidationResult.interactionResult v = None
        /\ targets t = []).
Proof.
  destruct (validateElement_interaction_target Demo.browser "#widget" None Demo.clickSpec
              Demo.start _ _ _ 0%nat _ _ eq_refl eq_refl eq_refl)
    as (Hchild & Hdirect & Hmissing).
  split; [|split].
  - destruct (Hchild "button" 1%nat _ _ _ _ ltac:(discriminate) eq_refl eq_refl)
      as (r & dc & w6 & t6 & v & w' & t & Hexec & Hrun & Hfound & Hres & Hdc
          & _ & _ & _ & _ & _ & _ & Hok).
    assert (InteractionResult.success r = true) as Hsuccess.
    { vm_compute in Hexec. by injection Hexec as <- _ _ _. }
    destruct (Hok Hsuccess) as (_ & Htargets & wf & ->).
    exists v, w', t. rewrite Hres, Hdc, Htargets. by repeat split.
  - destruct (Hdirect None eq_refl)
      as (r & dc & w4 & t4 & v & w' & t & Hexec & Hrun & _ & Hres & Hdc
          & _ & _ & _ & _ & _ & _ & Hok).
    assert (InteractionResult.success r = true) as Hsuccess.
    { vm_compute in Hexec. by injection Hexec as <- _ _ _. }
    destruct (Hok Hsuccess) as (_ & Htargets & wf & ->).
    exists v, w', t. rewrite Hres, Hdc, Htargets. by repeat split.
  - destruct (Hmissing "input" _ ltac:(discriminate) eq_refl)
      as (v & w' & t & Hrun & _ & Hres & _ & Hnone).
    by exists v, w', t.
Defined.
